(** * veneur worker: a shallow embedding of [worker.go]

    The worker owns one aggregation window ([WorkerMetrics]): five Go maps
    from [MetricKey] to a pointer to an accumulator.  Go maps and the
    accumulators behind the pointers are shared objects, so they live in an
    explicit heap here; the [WorkerMetrics] struct itself is a value holding
    five map references, exactly what [ret := w.wm] copies in [Flush]. *)

From Stdlib Require Import ZArith Floats.PrimFloat.
From stdpp Require Import gmap strings list fin_maps pretty.

Open Scope Z_scope.

(** ** Values that cross the worker's boundary *)

(** Go's [float64]; [float32] sample rates are carried in the same binary64
    type (every binary32 value is one), the worker only passes them on. *)
Abbreviation float64 := PrimFloat.float (only parsing).
Abbreviation float32 := PrimFloat.float (only parsing).

(** Go's [int64] arithmetic wraps around. *)
Definition wrap64 (z : Z) : Z := (z + 2 ^ 63) mod 2 ^ 64 - 2 ^ 63.
Definition MaxInt64 : Z := 2 ^ 63 - 1.

(** Modelled from the spec: the declaration of [MetricKey] is not part of
    [worker.go]; the identity is composed of (name, type, tag-set
    fingerprint). *)
Record MetricKey := mkMetricKey {
  Name : string;
  Type' : string;
  JoinedTags : string
}.

Global Instance MetricKey_eq_dec : EqDecision MetricKey.
Proof. solve_decision. Defined.

Global Instance MetricKey_countable : Countable MetricKey.
Proof.
  refine (inj_countable' (fun k => (Name k, Type' k, JoinedTags k))
            (fun t => mkMetricKey t.1.1 t.1.2 t.2) _).
  by intros [].
Defined.

(** The dynamically typed [Value interface{}] of a sample: a float or a
    string, depending on the metric type. *)
Inductive value :=
| VFloat (f : float64)
| VString (s : string).

(** Modelled from the spec: the declaration of [UDPMetric] is not part of
    [worker.go]; a sample carries its identity, and its name and type are
    those of the identity ([m.Name], [m.Type]). *)
Record UDPMetric := mkUDPMetric {
  Key : MetricKey;
  Value : value;
  SampleRate : float32;
  Tags : list string
}.

(** Modelled from the spec: the declaration of [JSONMetric] is not part of
    [worker.go]; an import carries an identity, tags and the encoded state
    of a peer's accumulator. *)
Record JSONMetric := mkJSONMetric {
  JKey : MetricKey;
  JTags : list string;
  JValue : string
}.

(** The accumulators are opaque to the worker: it constructs them, calls
    [Sample] on them and, for sets, [Combine].  The methods mutate their
    receiver in place; here they map the receiver's old content to its new
    content.  [Combine] also returns Go's [error] ([None] for [nil]). *)
Class Samplers := {
  Counter : Type;
  Gauge : Type;
  Histo : Type;
  Set' : Type;
  NewCounter : string -> list string -> Counter;
  NewGauge : string -> list string -> Gauge;
  NewHist : string -> list string -> Histo;
  NewSet : string -> list string -> Set';
  Counter_Sample : Counter -> float64 -> float32 -> Counter;
  Gauge_Sample : Gauge -> float64 -> float32 -> Gauge;
  Histo_Sample : Histo -> float64 -> float32 -> Histo;
  Set_Sample : Set' -> string -> float32 -> Set';
  Set_Combine : Set' -> string -> Set' * option string
}.

(** ** Side channels: the logger and the statistics client *)

Inductive level := DebugLevel | ErrorLevel.

Inductive field :=
| FString (key : string) (v : string)
| FInt (key : string) (v : Z)
| FError (err : string).

Record entry := mkEntry {
  e_level : level;
  e_field : field;
  e_msg : string
}.

Inductive stat :=
| TimeInMilliseconds (name : string) (v : float64) (tags : list string) (rate : float64)
| Count (name : string) (v : Z) (tags : list string) (rate : float64).

(** ** The heap and the worker *)

Abbreviation loc := nat (only parsing).

(** just a plain struct bundling together the flushed contents of a worker:
    five references to map objects. *)
Record WorkerMetrics := mkWorkerMetrics {
  counters : loc;
  gauges : loc;
  histograms : loc;
  sets : loc;
  timers : loc
}.

(** The fields of [Worker] that the methods read and write.  The channels
    are part of the dispatch loop's state below; the mutex makes every
    method body below one critical section. *)
Record Worker := mkWorker {
  id : Z;
  processed : Z;
  imported : Z;
  wm : WorkerMetrics
}.

Section Worker.
Context `{Samplers}.

(** What a [*Counter], [*Gauge], [*Histo] or [*Set] points to. *)
Inductive object :=
| OCounter (c : Counter)
| OGauge (g : Gauge)
| OHisto (h : Histo)
| OSet (s : Set').

(** Objects are allocated at the end of their store, so a location that is
    not below the store's length is not allocated; such a reference behaves
    as Go's [nil]. *)
Record Heap := mkHeap {
  mapH : list (gmap MetricKey loc);
  objH : list object
}.

Record State := mkState {
  self : Worker;
  heap : Heap;
  logged : list entry;
  reported : list stat
}.

(** A method call either returns or panics; both leave a state behind. *)
Inductive outcome (A : Type) :=
| Done (a : A) (s : State)
| Panic (s : State).
Arguments Done {A} a s.
Arguments Panic {A} s.

Definition final {A} (o : outcome A) : State :=
  match o with Done _ s => s | Panic s => s end.

Definition M (A : Type) := State -> outcome A.

Definition ret {A} (a : A) : M A := fun s => Done a s.
Definition bind {A B} (c : M A) (k : A -> M B) : M B :=
  fun s => match c s with Done a s' => k a s' | Panic s' => Panic s' end.
Definition panic {A} : M A := fun s => Panic s.
Definition get {A} (f : State -> A) : M A := fun s => Done (f s) s.
Definition modify (f : State -> State) : M unit := fun s => Done tt (f s).

#[export] Instance M_ret : MRet M := @ret.
#[export] Instance M_bind : MBind M := fun A B k c => bind c k.

Definition set_self (f : Worker -> Worker) (s : State) : State :=
  mkState (f (self s)) (heap s) (logged s) (reported s).
Definition set_heap (f : Heap -> Heap) (s : State) : State :=
  mkState (self s) (f (heap s)) (logged s) (reported s).

Definition add_entry (e : entry) (s : State) : State :=
  mkState (self s) (heap s) (logged s ++ [e]) (reported s).
Definition log (l : level) (f : field) (msg : string) : M unit :=
  modify (add_entry (mkEntry l f msg)).
Definition add_stat (e : stat) (s : State) : State :=
  mkState (self s) (heap s) (logged s) (reported s ++ [e]).
Definition report (e : stat) : M unit :=
  modify (add_stat e).

(** *** Go maps *)

Definition set_mapH (f : list (gmap MetricKey loc) -> list (gmap MetricKey loc))
    (h : Heap) : Heap :=
  mkHeap (f (mapH h)) (objH h).
Definition set_objH (f : list object -> list object) (h : Heap) : Heap :=
  mkHeap (mapH h) (f (objH h)).

(** The three ways the methods write to the heap. *)
Definition push_obj (o : object) (s : State) : State :=
  set_heap (set_objH (fun os => os ++ [o])) s.
Definition store (l : loc) (o : object) (s : State) : State :=
  set_heap (set_objH (fun os => <[l := o]> os)) s.
Definition put_map (r : loc) (m : gmap MetricKey loc) (s : State) : State :=
  set_heap (set_mapH (fun ms => <[r := m]> ms)) s.

(** [make(map[MetricKey]*T)] *)
Definition make_map (h : Heap) : loc * Heap :=
  (length (mapH h), set_mapH (fun ms => ms ++ [∅]) h).

(** [p, present := r[k]]: reading a nil map finds nothing. *)
Definition map_lookup (h : Heap) (r : loc) (k : MetricKey) : option loc :=
  mapH h !! r ≫= fun m => m !! k.

(** [len(r)], 0 for a nil map. *)
Definition map_len (h : Heap) (r : loc) : Z :=
  match mapH h !! r with
  | Some m => Z.of_nat (size m)
  | None => 0
  end.

(** [r[k] = p]: assignment to an entry of a nil map panics. *)
Definition map_assign (r : loc) (k : MetricKey) (p : loc) : M unit :=
  fun s =>
    match mapH (heap s) !! r with
    | Some m => Done tt (put_map r (<[k := p]> m) s)
    | None => Panic s
    end.

(** *** The five families of accumulators

    The five cases of [ProcessMetric] are the same statements over a
    different mapping, constructor, log message and asserted value type;
    a [family] records what differs. *)
Record family := mkFamily {
  fam_T : Type;
  fam_V : Type;
  fam_map : WorkerMetrics -> loc;
  fam_in : fam_T -> object;
  fam_out : object -> option fam_T;
  fam_new_msg : string;
  fam_new : string -> list string -> fam_T;
  fam_assert : value -> option fam_V;
  fam_sample : fam_T -> fam_V -> float32 -> fam_T
}.

(** [m.Value.(float64)] and [m.Value.(string)] *)
Definition assert_float64 (v : value) : option float64 :=
  match v with VFloat f => Some f | VString _ => None end.
Definition assert_string (v : value) : option string :=
  match v with VString s => Some s | VFloat _ => None end.

Definition as_counter (o : object) : option Counter :=
  match o with OCounter c => Some c | _ => None end.
Definition as_gauge (o : object) : option Gauge :=
  match o with OGauge g => Some g | _ => None end.
Definition as_histo (o : object) : option Histo :=
  match o with OHisto h => Some h | _ => None end.
Definition as_set (o : object) : option Set' :=
  match o with OSet s => Some s | _ => None end.

Definition counterF : family :=
  mkFamily Counter float64 counters OCounter as_counter
    "New counter" NewCounter assert_float64 Counter_Sample.
Definition gaugeF : family :=
  mkFamily Gauge float64 gauges OGauge as_gauge
    "New gauge" NewGauge assert_float64 Gauge_Sample.
Definition histogramF : family :=
  mkFamily Histo float64 histograms OHisto as_histo
    "New histogram" NewHist assert_float64 Histo_Sample.
Definition setF : family :=
  mkFamily Set' string sets OSet as_set
    "New set" NewSet assert_string Set_Sample.
Definition timerF : family :=
  mkFamily Histo float64 timers OHisto as_histo
    "New timer" NewHist assert_float64 Histo_Sample.

(** [&T{...}]: a new object at a fresh location. *)
Definition alloc (F : family) (a : fam_T F) : M loc :=
  fun s => Done (length (objH (heap s))) (push_obj (fam_in F a) s).

(** A method with a pointer receiver: it updates the object in place and
    returns a result; a nil receiver panics when it is dereferenced. *)
Definition call {R} (F : family) (p : option loc) (f : fam_T F -> fam_T F * R) : M R :=
  fun s =>
    match p with
    | Some l =>
        match objH (heap s) !! l ≫= fam_out F with
        | Some a => Done (f a).2 (store l (fam_in F (f a).1) s)
        | None => Panic s
        end
    | None => Panic s
    end.

(** [_, present := w.wm.xs[key]; if !present { ...; w.wm.xs[key] = New(name, tags) }] *)
Definition ensure (F : family) (k : MetricKey) (name : string) (tags : list string) : M unit :=
  w ← get self;
  h ← get heap;
  match map_lookup h (fam_map F (wm w)) k with
  | Some _ => ret tt
  | None =>
      log DebugLevel (FString "name" name) (fam_new_msg F) ;;
      p ← alloc F (fam_new F name tags);
      map_assign (fam_map F (wm w)) k p
  end.

(** One case of the switch in [ProcessMetric]. *)
Definition sample_case (F : family) (m : UDPMetric) : M unit :=
  ensure F (Key m) (Name (Key m)) (Tags m) ;;
  w ← get self;
  h ← get heap;
  let p := map_lookup h (fam_map F (wm w)) (Key m) in
  match fam_assert F (Value m) with
  | Some v => call F p (fun a => (fam_sample F a v (SampleRate m), tt))
  | None => panic
  end.

(** *** The methods of [Worker] *)

(** [w.processed++] and [w.imported++] *)
Definition incr_processed (w : Worker) : Worker :=
  mkWorker (id w) (wrap64 (processed w + 1)) (imported w) (wm w).
Definition incr_imported (w : Worker) : Worker :=
  mkWorker (id w) (processed w) (wrap64 (imported w + 1)) (wm w).

(** ProcessMetric takes a Metric and samples it *)
Definition ProcessMetric (m : UDPMetric) : M unit :=
  modify (set_self incr_processed) ;;
  let t := Type' (Key m) in
  if String.eqb t "counter" then sample_case counterF m
  else if String.eqb t "gauge" then sample_case gaugeF m
  else if String.eqb t "histogram" then sample_case histogramF m
  else if String.eqb t "set" then sample_case setF m
  else if String.eqb t "timer" then sample_case timerF m
  else log ErrorLevel (FString "type" t) "Unknown metric type for processing".

Definition ImportMetric (other : JSONMetric) : M unit :=
  modify (set_self incr_imported) ;;
  let t := Type' (JKey other) in
  if String.eqb t "set" then
    ensure setF (JKey other) (Name (JKey other)) (JTags other) ;;
    w ← get self;
    h ← get heap;
    let p := map_lookup h (sets (wm w)) (JKey other) in
    err ← call setF p (fun a => Set_Combine a (JValue other));
    match err with
    | Some e => log ErrorLevel (FError e) "Could not merge sets"
    | None => ret tt
    end
  else log ErrorLevel (FString "type" t) "Unknown metric type for importing".

(** [NewWorkerMetrics]: five fresh, empty maps. *)
Definition NewWorkerMetrics (h : Heap) : WorkerMetrics * Heap :=
  let '(c, h) := make_map h in
  let '(g, h) := make_map h in
  let '(hi, h) := make_map h in
  let '(st, h) := make_map h in
  let '(t, h) := make_map h in
  (mkWorkerMetrics c g hi st t, h).

(** NewWorker creates, and returns a new Worker object. *)
Definition NewWorker (i : Z) : State :=
  let '(m, h) := NewWorkerMetrics (mkHeap [] []) in
  mkState (mkWorker i 0 0 m) h [] [].

(** [fmt.Sprintf("worker:%d", w.id)] *)
Definition worker_tag (i : Z) : string := "worker:" +:+ pretty i.

(** Flush resets the worker's internal metrics and returns their contents.
    [elapsed] is the reading [float64(time.Now().Sub(start).Nanoseconds())]
    of the clock. *)
Definition Flush (elapsed : float64) : M WorkerMetrics :=
  w ← get self;
  let r := wm w in
  let np := processed w in
  let ni := imported w in
  modify (fun s =>
    let '(m, h) := NewWorkerMetrics (heap s) in
    mkState (mkWorker (id w) 0 0 m) h (logged s) (reported s)) ;;
  report (TimeInMilliseconds "flush.worker_duration_ns" elapsed [] 1) ;;
  report (Count "worker.metrics_processed_total" np [worker_tag (id w)] 1) ;;
  report (Count "worker.metrics_imported_total" ni [worker_tag (id w)] 1) ;;
  h ← get heap;
  report (Count "worker.metrics_flushed_total" (map_len h (counters r)) ["metric_type:counter"] 1) ;;
  report (Count "worker.metrics_flushed_total" (map_len h (gauges r)) ["metric_type:gauge"] 1) ;;
  report (Count "worker.metrics_flushed_total" (map_len h (histograms r)) ["metric_type:histogram"] 1) ;;
  report (Count "worker.metrics_flushed_total" (map_len h (sets r)) ["metric_type:set"] 1) ;;
  report (Count "worker.metrics_flushed_total" (map_len h (timers r)) ["metric_type:timer"] 1) ;;
  ret r.

(** *** The dispatch loop

    [WorkChan] is unbuffered: what the loop can receive is what senders are
    offering, in the order they are served.  Nothing is ever sent on
    [QuitChan]; it is ready once it is closed. *)
Record Chans := mkChans {
  WorkChan : list UDPMetric;
  QuitChan : bool
}.

Inductive selected :=
| Recv (m : UDPMetric)
| Quit
| Block.

(** Go's [select]: a case that can proceed is taken; when both can, one is
    chosen by the runtime's pseudo-random draw [coin]; when none can, the
    goroutine blocks. *)
Definition select (coin : bool) (c : Chans) : selected * Chans :=
  match WorkChan c, QuitChan c with
  | m :: ms, true => if coin then (Recv m, mkChans ms true) else (Quit, c)
  | m :: ms, false => (Recv m, mkChans ms false)
  | [], true => (Quit, c)
  | [], false => (Block, c)
  end.

Inductive halt := Returned | Blocked | Crashed | Running.

(** [Work]: one draw of the runtime per iteration of the loop; the loop is
    still [Running] when the draws run out. *)
Fixpoint Work (coins : list bool) (c : Chans) (s : State) : halt * Chans * State :=
  match coins with
  | [] => (Running, c, s)
  | coin :: coins =>
      match select coin c with
      | (Recv m, c') =>
          match ProcessMetric m s with
          | Done _ s' => Work coins c' s'
          | Panic s' => (Crashed, c', s')
          end
      | (Quit, c') =>
          (Returned, c',
           final (log ErrorLevel (FInt "worker" (id (self s))) "Stopping" s))
      | (Block, c') => (Blocked, c', s)
      end
  end.

(** Stop tells the worker to stop listening for work requests: closing a
    closed channel panics ([None]). *)
Definition Stop (c : Chans) : option Chans :=
  if QuitChan c then None else Some (mkChans (WorkChan c) true).

(** ** Reading a snapshot out of the heap *)

Inductive kind := KCounter | KGauge | KHistogram | KSet | KTimer.

#[export] Instance kind_eq_dec : EqDecision kind.
Proof. solve_decision. Defined.

Definition familyOf (K : kind) : family :=
  match K with
  | KCounter => counterF
  | KGauge => gaugeF
  | KHistogram => histogramF
  | KSet => setF
  | KTimer => timerF
  end.

(** The case of [ProcessMetric]'s switch that a type string selects. *)
Definition kind_of (t : string) : option kind :=
  if String.eqb t "counter" then Some KCounter
  else if String.eqb t "gauge" then Some KGauge
  else if String.eqb t "histogram" then Some KHistogram
  else if String.eqb t "set" then Some KSet
  else if String.eqb t "timer" then Some KTimer
  else None.

(** The pointer stored for [k] in one mapping of a snapshot, and the
    accumulator behind it. *)
Definition entry_of (h : Heap) (r : WorkerMetrics) (F : family) (k : MetricKey) : option loc :=
  map_lookup h (fam_map F r) k.
Definition acc_of (h : Heap) (r : WorkerMetrics) (F : family) (k : MetricKey) : option (fam_T F) :=
  entry_of h r F k ≫= fun l => objH h !! l ≫= fam_out F.

(** The same for the worker's live snapshot. *)
Definition owner (s : State) (F : family) (k : MetricKey) : option loc :=
  entry_of (heap s) (wm (self s)) F k.
Definition acc_at (s : State) (F : family) (k : MetricKey) : option (fam_T F) :=
  acc_of (heap s) (wm (self s)) F k.

(** The content of one mapping of a snapshot. *)
Definition mapping (h : Heap) (r : WorkerMetrics) (F : family) : option (gmap MetricKey loc) :=
  mapH h !! fam_map F r.

(** What Go's typing and allocation guarantee of a worker's state: the five
    mappings of the live snapshot are five distinct allocated maps, every
    pointer in them points to an accumulator of the mapping's type, and no
    accumulator is pointed to twice. *)
Record wf (s : State) : Prop := mkWf {
  wf_maps : forall K, is_Some (mapping (heap s) (wm (self s)) (familyOf K));
  wf_distinct : forall K K',
    fam_map (familyOf K) (wm (self s)) = fam_map (familyOf K') (wm (self s)) -> K = K';
  wf_typed : forall K k l, owner s (familyOf K) k = Some l ->
    exists a, objH (heap s) !! l = Some (fam_in (familyOf K) a);
  wf_separate : forall K K' k k' l,
    owner s (familyOf K) k = Some l -> owner s (familyOf K') k' = Some l ->
    K = K' /\ k = k'
}.

(** The calls a worker receives from the listener, from peers and from the
    flush coordinator. *)
Inductive op :=
| OpProcess (m : UDPMetric)
| OpImport (j : JSONMetric)
| OpFlush (elapsed : float64).

Definition step (o : op) (s : State) : outcome unit :=
  match o with
  | OpProcess m => ProcessMetric m s
  | OpImport j => ImportMetric j s
  | OpFlush e => (Flush e ;; ret tt) s
  end.

(** A sequence of calls; a panic ends it. *)
Fixpoint run (os : list op) : M unit :=
  match os with
  | [] => ret tt
  | o :: os => step o ;; run os
  end.

End Worker.

Arguments Done {_ A} a s.
Arguments Panic {_ A} s.

(** ** A reference implementation of the accumulators *)

Module Ref.

(** Modelled from the spec: the accumulators are not part of [worker.go].
    A counter sums its observations, each standing in for [1/rate] events;
    a gauge keeps the last value; a histogram keeps its weighted
    observations; a set keeps the distinct tokens it has seen. *)
Record RCounter := mkRCounter { c_name : string; c_tags : list string; c_value : float64 }.
Record RGauge := mkRGauge { g_name : string; g_tags : list string; g_value : float64 }.
Record RHisto := mkRHisto { h_name : string; h_tags : list string; h_obs : list (float64 * float64) }.
Record RSet := mkRSet { s_name : string; s_tags : list string; s_members : list string }.

Definition add_member (v : string) (l : list string) : list string :=
  if bool_decide (v ∈ l) then l else l ++ [v].

(** Modelled from the spec: the encoding of a set's state is not part of
    [worker.go]; here a state is the tokens, each closed by a comma, and
    anything else is structurally invalid. *)
Fixpoint decode (cur : string) (enc : string) : option (list string) :=
  match enc with
  | EmptyString => if String.eqb cur "" then Some [] else None
  | String a rest =>
      if String.eqb (String a "") "," then cons (String.rev cur) <$> decode "" rest
      else decode (String a cur) rest
  end.

Definition combine (s : RSet) (enc : string) : RSet * option string :=
  match decode "" enc with
  | Some toks => (mkRSet (s_name s) (s_tags s) (foldr add_member (s_members s) (reverse toks)), None)
  | None => (s, Some "malformed set state")
  end.

#[export] Instance samplers : Samplers := {|
  Counter := RCounter;
  Gauge := RGauge;
  Histo := RHisto;
  Set' := RSet;
  NewCounter n t := mkRCounter n t 0;
  NewGauge n t := mkRGauge n t 0;
  NewHist n t := mkRHisto n t [];
  NewSet n t := mkRSet n t [];
  Counter_Sample c v r := mkRCounter (c_name c) (c_tags c) (c_value c + v * (1 / r))%float;
  Gauge_Sample g v r := mkRGauge (g_name g) (g_tags g) v;
  Histo_Sample h v r := mkRHisto (h_name h) (h_tags h) (h_obs h ++ [(v, (1 / r)%float)]);
  Set_Sample s v r := mkRSet (s_name s) (s_tags s) (add_member v (s_members s));
  Set_Combine := combine
|}.

End Ref.

Definition requests : UDPMetric :=
  mkUDPMetric (mkMetricKey "requests" "counter" "") (VFloat 1) 1 [].
(** The samples and imports of the spec's scenarios. *)
Definition cpu : UDPMetric :=
  mkUDPMetric (mkMetricKey "cpu" "gauge" "") (VFloat 0.5) 1 [].
Definition bogus : UDPMetric :=
  mkUDPMetric (mkMetricKey "x" "bogus" "") (VFloat 1) 1 [].
Definition requests_text : UDPMetric :=
  mkUDPMetric (mkMetricKey "requests" "counter" "") (VString "one") 1 [].
Definition users : MetricKey := mkMetricKey "users" "set" "".
Definition visitor : UDPMetric := mkUDPMetric users (VString "carol") 1 [].
Definition users_valid : JSONMetric := mkJSONMetric users [] "alice,bob,".
Definition users_corrupted : JSONMetric := mkJSONMetric users [] "garbage".


(** * Vocabulary of the properties *)

Section Vocabulary.
Context `{Samplers}.

(** A computation leaves a component [f] of the state alone. *)
Definition keeps {A X} (f : State -> X) (c : M A) : Prop :=
  forall s, f (final (c s)) = f s.

(** The state [Flush] leaves. *)
Definition flushed (e : float64) (s : State) : State :=
  let w := self s in
  let r := wm w in
  let h := heap s in
  mkState (mkWorker (id w) 0 0 (NewWorkerMetrics h).1) (NewWorkerMetrics h).2
    (logged s)
    (reported s ++
     [TimeInMilliseconds "flush.worker_duration_ns" e [] 1;
      Count "worker.metrics_processed_total" (processed w) [worker_tag (id w)] 1;
      Count "worker.metrics_imported_total" (imported w) [worker_tag (id w)] 1;
      Count "worker.metrics_flushed_total" (map_len h (counters r)) ["metric_type:counter"] 1;
      Count "worker.metrics_flushed_total" (map_len h (gauges r)) ["metric_type:gauge"] 1;
      Count "worker.metrics_flushed_total" (map_len h (histograms r)) ["metric_type:histogram"] 1;
      Count "worker.metrics_flushed_total" (map_len h (sets r)) ["metric_type:set"] 1;
      Count "worker.metrics_flushed_total" (map_len h (timers r)) ["metric_type:timer"] 1]).

(** The worker's footprint in the heap: the maps of its live snapshot and
    the accumulators they point to. *)
Definition fp_map (s : State) (r : loc) : Prop :=
  exists K, r = fam_map (familyOf K) (wm (self s)).
Definition fp_obj (s : State) (l : loc) : Prop :=
  exists K k, owner s (familyOf K) k = Some l.

(** How a method may change the heap: it allocates, it writes inside the
    worker's footprint, and whatever enters the footprint is newly
    allocated. *)
Record evolves (s s' : State) : Prop := mkEvolves {
  ev_maps_len : (length (mapH (heap s)) <= length (mapH (heap s')))%nat;
  ev_objs_len : (length (objH (heap s)) <= length (objH (heap s')))%nat;
  ev_maps : forall r, (r < length (mapH (heap s)))%nat -> ~ fp_map s r ->
    mapH (heap s') !! r = mapH (heap s) !! r;
  ev_objs : forall l, (l < length (objH (heap s)))%nat -> ~ fp_obj s l ->
    objH (heap s') !! l = objH (heap s) !! l;
  ev_fp_maps : forall r, fp_map s' r ->
    fp_map s r \/ (length (mapH (heap s)) <= r)%nat;
  ev_fp_objs : forall l, fp_obj s' l ->
    fp_obj s l \/ (length (objH (heap s)) <= l)%nat
}.

(** The state after [w.wm.xs[k] = New(name, tags)], for the mapping of
    family [F], whose content was [mp]: the new accumulator [a] is allocated
    and the map points to it. *)
Definition adopt (F : family) (k : MetricKey) (a : fam_T F)
    (mp : gmap MetricKey loc) (s : State) : State :=
  put_map (fam_map F (wm (self s))) (<[k := length (objH (heap s))]> mp)
    (push_obj (fam_in F a) s).

(** A snapshot [r], read in heap [h1], is out of the worker's reach in
    state [s]: its maps and the accumulators they point to are allocated,
    hold what they held in [h1], and are outside the worker's footprint. *)
Definition isolated (r : WorkerMetrics) (h1 : Heap) (s : State) : Prop :=
  (forall K, (fam_map (familyOf K) r < length (mapH (heap s)))%nat /\
             ~ fp_map s (fam_map (familyOf K) r) /\
             mapH (heap s) !! fam_map (familyOf K) r = mapH h1 !! fam_map (familyOf K) r) /\
  (forall K k l, entry_of h1 r (familyOf K) k = Some l ->
             (l < length (objH (heap s)))%nat /\
             ~ fp_obj s l /\
             objH (heap s) !! l = objH h1 !! l).

(** A sample whose value has the representation its type asserts; a
    sample of an unknown type asserts nothing. *)
Definition well_typed (m : UDPMetric) : Prop :=
  match kind_of (Type' (Key m)) with
  | Some K => is_Some (fam_assert (familyOf K) (Value m))
  | None => True
  end.

(** [a.Sample(m.Value, m.SampleRate)] on an accumulator of family [F]. *)
Definition sample_with (F : family) (a : fam_T F) (m : UDPMetric) : option (fam_T F) :=
  (fun v => fam_sample F a v (SampleRate m)) <$> fam_assert F (Value m).

(** The left fold of [Sample] over samples of one key, in delivery order,
    from what the key's entry holds ([None]: no entry yet, the first sample
    makes the accumulator from its name and tags). *)
Definition fold_samples (F : family) (a : option (fam_T F)) (ms : list UDPMetric) :
    option (fam_T F) :=
  foldl (fun oa m => sample_with F (default (fam_new F (Name (Key m)) (Tags m)) oa) m) a ms.

(** The eight observations of a flush of an empty window. *)
Definition empty_report (e : float64) (i : Z) : list stat :=
  [TimeInMilliseconds "flush.worker_duration_ns" e [] 1;
   Count "worker.metrics_processed_total" 0 [worker_tag i] 1;
   Count "worker.metrics_imported_total" 0 [worker_tag i] 1;
   Count "worker.metrics_flushed_total" 0 ["metric_type:counter"] 1;
   Count "worker.metrics_flushed_total" 0 ["metric_type:gauge"] 1;
   Count "worker.metrics_flushed_total" 0 ["metric_type:histogram"] 1;
   Count "worker.metrics_flushed_total" 0 ["metric_type:set"] 1;
   Count "worker.metrics_flushed_total" 0 ["metric_type:timer"] 1].

(** A call other than [Flush]. *)
Definition no_flush (o : op) : Prop :=
  match o with OpFlush _ => False | _ => True end.

(** The keys of a window's samples that go to the mapping of kind [K]. *)
Definition keys_of (K : kind) (ms : list UDPMetric) : gset MetricKey :=
  list_to_set (Key <$> filter (fun m => kind_of (Type' (Key m)) = Some K) ms).

End Vocabulary.

(** * Properties *)

(** A decidable goal, settled by running its decision procedure. *)
Ltac decide_by_vm := apply (bool_decide_unpack _); vm_compute; exact I.

Section Counting.
Context `{Samplers}.

(** The state a computation leaves, whether it returns or panics, through
    a sequence of two. *)
Lemma final_bind {A B} (c : M A) (k : A -> M B) (s : State) :
  final ((c ≫= k) s) =
  match c s with Done a s' => final (k a s') | Panic s' => s' end.
Proof. unfold mbind, M_bind, bind. by destruct (c s). Qed.

Lemma keeps_bind {A B X} (f : State -> X) (c : M A) (k : A -> M B) :
  keeps f c -> (forall a, keeps f (k a)) -> keeps f (c ≫= k).
Proof.
  intros Hc Hk s. rewrite final_bind. specialize (Hc s).
  destruct (c s) as [a s'|s']; simpl in Hc; [|done].
  by rewrite Hk.
Qed.

Lemma keeps_ret {A X} (f : State -> X) (a : A) : keeps f (mret a).
Proof. done. Qed.
Lemma keeps_panic {A X} (f : State -> X) : keeps f (@panic _ A).
Proof. done. Qed.
Lemma keeps_get {A X} (f : State -> X) (g : State -> A) : keeps f (get g).
Proof. done. Qed.
Lemma keeps_self_log l fl msg : keeps self (log l fl msg).
Proof. done. Qed.
Lemma keeps_self_alloc F a : keeps self (alloc F a).
Proof. done. Qed.
Lemma keeps_self_map_assign r k p : keeps self (map_assign r k p).
Proof. intros s. unfold map_assign. by destruct (_ !! _). Qed.
Lemma keeps_self_call {R} F p (f : fam_T F -> fam_T F * R) : keeps self (call F p f).
Proof. intros s. unfold call. destruct p; [|done]. by destruct (_ ≫= _). Qed.

Lemma keeps_self_ensure F k n t : keeps self (ensure F k n t).
Proof.
  unfold ensure. apply keeps_bind; [apply keeps_get|]. intros w.
  apply keeps_bind; [apply keeps_get|]. intros h.
  destruct (map_lookup _ _ _); [apply keeps_ret|].
  apply keeps_bind; [apply keeps_self_log|]. intros _.
  apply keeps_bind; [apply keeps_self_alloc|]. intros p.
  apply keeps_self_map_assign.
Qed.

Lemma keeps_self_sample_case F m : keeps self (sample_case F m).
Proof.
  unfold sample_case. apply keeps_bind; [apply keeps_self_ensure|]. intros _.
  apply keeps_bind; [apply keeps_get|]. intros w.
  apply keeps_bind; [apply keeps_get|]. intros h.
  destruct (fam_assert _ _); [apply keeps_self_call|apply keeps_panic].
Qed.

Lemma self_ProcessMetric m s :
  self (final (ProcessMetric m s)) = incr_processed (self s).
Proof.
  unfold ProcessMetric. rewrite final_bind. cbn [modify].
  repeat case_match;
    first [apply (keeps_self_sample_case _ m (set_self incr_processed s)) | done].
Qed.

Lemma self_ImportMetric j s :
  self (final (ImportMetric j s)) = incr_imported (self s).
Proof.
  unfold ImportMetric. rewrite final_bind. cbn [modify].
  case_match; [|done].
  change (incr_imported (self s)) with (self (set_self incr_imported s)).
  generalize (set_self incr_imported s). apply keeps_bind; [apply keeps_self_ensure|].
  intros _. apply keeps_bind; [apply keeps_get|]. intros w.
  apply keeps_bind; [apply keeps_get|]. intros h.
  apply keeps_bind; [apply keeps_self_call|]. intros [e|]; [apply keeps_self_log|apply keeps_ret].
Qed.

Lemma wrap64_succ z : - 2 ^ 63 <= z < MaxInt64 -> wrap64 (z + 1) = z + 1.
Proof.
  unfold wrap64, MaxInt64. intros Hz.
  rewrite Z.mod_small; lia.
Qed.

(** C4: a call to [ProcessMetric] adds one to [processed] (in Go's [int64]
    arithmetic, hence exactly one below [MaxInt64]) and leaves [imported]
    as it was; a call to [ImportMetric] adds one to [imported] and leaves
    [processed] as it was.  This holds of the state the call leaves
    whether it returns or panics. *)
Theorem processed_imported_separation (m : UDPMetric) (j : JSONMetric) (s : State) :
  let p := self (final (ProcessMetric m s)) in
  let i := self (final (ImportMetric j s)) in
  (processed p = wrap64 (processed (self s) + 1) /\
   imported p = imported (self s) /\
   (- 2 ^ 63 <= processed (self s) < MaxInt64 -> processed p = processed (self s) + 1)) /\
  (imported i = wrap64 (imported (self s) + 1) /\
   processed i = processed (self s) /\
   (- 2 ^ 63 <= imported (self s) < MaxInt64 -> imported i = imported (self s) + 1)).
Proof.
  cbv zeta. rewrite self_ProcessMetric, self_ImportMetric. simpl.
  repeat split; auto using wrap64_succ.
Qed.

End Counting.

Section Dropping.
Context `{Samplers}.

Lemma ImportMetric_unsupported (j : JSONMetric) (s : State) :
  Type' (JKey j) <> "set" ->
  ImportMetric j s =
  Done tt (add_entry (mkEntry ErrorLevel (FString "type" (Type' (JKey j)))
                        "Unknown metric type for importing")
             (set_self incr_imported s)).
Proof.
  intros Hne. apply String.eqb_neq in Hne.
  unfold ImportMetric, mbind, M_bind, bind, modify. by rewrite Hne.
Qed.

(** C10: every call to [ImportMetric] adds one to [imported], whatever the
    type of the import and whatever [Combine] answers, and whether the call
    returns or panics: the counter is bumped before the type is looked at.
    An import whose type is not "set" is reported and changes nothing
    else. *)
Theorem imported_counts_attempts (j : JSONMetric) (s : State) :
  imported (self (final (ImportMetric j s))) = wrap64 (imported (self s) + 1) /\
  (Type' (JKey j) <> "set" ->
   ImportMetric j s =
   Done tt (add_entry (mkEntry ErrorLevel (FString "type" (Type' (JKey j)))
                         "Unknown metric type for importing")
              (set_self incr_imported s))).
Proof.
  split; [by rewrite self_ImportMetric|]. apply ImportMetric_unsupported.
Qed.

(** C5: a sample whose type is none of the five is counted as processed,
    the error is logged, the call returns, and the heap (so every mapping
    and every accumulator) is exactly what it was. *)
Theorem unknown_type_dropped (m : UDPMetric) (s : State) :
  Type' (Key m) <> "counter" -> Type' (Key m) <> "gauge" ->
  Type' (Key m) <> "histogram" -> Type' (Key m) <> "set" ->
  Type' (Key m) <> "timer" ->
  let s' := add_entry (mkEntry ErrorLevel (FString "type" (Type' (Key m)))
                         "Unknown metric type for processing")
              (set_self incr_processed s) in
  ProcessMetric m s = Done tt s' /\
  processed (self s') = wrap64 (processed (self s) + 1) /\
  heap s' = heap s /\
  wm (self s') = wm (self s) /\
  (forall K k, owner s' (familyOf K) k = owner s (familyOf K) k) /\
  logged s' = logged s ++ [mkEntry ErrorLevel (FString "type" (Type' (Key m)))
                             "Unknown metric type for processing"].
Proof.
  intros H1 H2 H3 H4 H5. apply String.eqb_neq in H1, H2, H3, H4, H5.
  cbv zeta. split; [|done].
  unfold ProcessMetric, mbind, M_bind, bind, modify.
  by rewrite H1, H2, H3, H4, H5.
Qed.

End Dropping.

Section Flushing.
Context `{Samplers}.

Lemma map_len_make_map h r : map_len (make_map h).2 r = map_len h r.
Proof.
  unfold map_len, make_map. simpl.
  destruct (decide (r < length (mapH h))%nat) as [Hlt|Hge].
  - by rewrite lookup_app_l.
  - rewrite (lookup_ge_None_2 (mapH h)) by lia.
    destruct (decide (r = length (mapH h))) as [->|Hne].
    + by rewrite list_lookup_middle.
    + rewrite lookup_ge_None_2; [done|]. rewrite length_app. simpl. lia.
Qed.

Lemma map_len_NewWorkerMetrics h r : map_len (NewWorkerMetrics h).2 r = map_len h r.
Proof.
  unfold NewWorkerMetrics.
  change (map_len (make_map (make_map (make_map (make_map (make_map h).2).2).2).2).2 r
          = map_len h r).
  by rewrite !map_len_make_map.
Qed.

Lemma Flush_eq e s : Flush e s = Done (wm (self s)) (flushed e s).
Proof.
  unfold Flush, flushed, mbind, M_bind, bind, get, modify, report, add_stat, mret, M_ret, ret.
  cbn -[NewWorkerMetrics map_len worker_tag].
  destruct (NewWorkerMetrics (heap s)) as [m h] eqn:E.
  cbn -[map_len worker_tag].
  replace h with (NewWorkerMetrics (heap s)).2 by (by rewrite E).
  rewrite !map_len_NewWorkerMetrics.
  f_equal. f_equal. by rewrite <- !app_assoc.
Qed.

End Flushing.

Section HeapTheory.
Context `{Samplers}.

Lemma fam_out_in K a : fam_out (familyOf K) (fam_in (familyOf K) a) = Some a.
Proof. by destruct K. Qed.

Lemma owner_unfold s F k :
  owner s F k = mapH (heap s) !! fam_map F (wm (self s)) ≫= fun m => m !! k.
Proof. done. Qed.

Lemma wf_owner_lt s K k l :
  wf s -> owner s (familyOf K) k = Some l -> (l < length (objH (heap s)))%nat.
Proof.
  intros Hwf Ho. destruct (wf_typed s Hwf K k l Ho) as [a Ha].
  by apply lookup_lt_Some in Ha.
Qed.

Lemma wf_acc_at s K k l :
  wf s -> owner s (familyOf K) k = Some l ->
  exists a, objH (heap s) !! l = Some (fam_in (familyOf K) a) /\
            acc_at s (familyOf K) k = Some a.
Proof.
  intros Hwf Ho. destruct (wf_typed s Hwf K k l Ho) as [a Ha].
  exists a. split; [done|].
  unfold acc_at, acc_of. fold (owner s (familyOf K) k). rewrite Ho. simpl.
  rewrite Ha. simpl. apply fam_out_in.
Qed.

Lemma acc_at_None s F k : owner s F k = None -> acc_at s F k = None.
Proof. intros Ho. unfold acc_at, acc_of. fold (owner s F k). by rewrite Ho. Qed.

(** *** Evolution is a preorder *)

Lemma evolves_refl s : evolves s s.
Proof. constructor; auto. Qed.

Lemma evolves_trans s1 s2 s3 : evolves s1 s2 -> evolves s2 s3 -> evolves s1 s3.
Proof.
  intros [a1 b1 c1 d1 e1 f1] [a2 b2 c2 d2 e2 f2]. constructor.
  - lia.
  - lia.
  - intros r Hr Hn. rewrite c2; [by apply c1|lia|].
    intros Hf. destruct (e1 r Hf); [done|lia].
  - intros l Hl Hn. rewrite d2; [by apply d1|lia|].
    intros Hf. destruct (f1 l Hf); [done|lia].
  - intros r Hf. destruct (e2 r Hf) as [Hf'|?]; [|right; lia].
    destruct (e1 r Hf'); [by left|by right].
  - intros l Hf. destruct (f2 l Hf) as [Hf'|?]; [|right; lia].
    destruct (f1 l Hf'); [by left|by right].
Qed.

(** *** Steps that leave the heap and the snapshot's references alone *)

Lemma wf_same s s' :
  heap s' = heap s -> wm (self s') = wm (self s) -> wf s -> wf s'.
Proof.
  intros Hh Hw [a b c d].
  constructor; unfold owner, mapping in *; rewrite ?Hh, ?Hw; auto.
Qed.

Lemma evolves_same s s' :
  heap s' = heap s -> wm (self s') = wm (self s) -> evolves s s'.
Proof.
  intros Hh Hw.
  constructor; unfold fp_map, fp_obj, owner in *; rewrite ?Hh, ?Hw; auto.
Qed.

Lemma acc_at_same s s' F k :
  heap s' = heap s -> wm (self s') = wm (self s) -> acc_at s' F k = acc_at s F k.
Proof. intros Hh Hw. unfold acc_at. by rewrite Hh, Hw. Qed.

(** *** Writing to an accumulator the worker owns *)

Lemma wf_store s K k l a :
  wf s -> owner s (familyOf K) k = Some l ->
  wf (store l (fam_in (familyOf K) a) s).
Proof.
  intros Hwf Ho. pose proof (wf_owner_lt _ _ _ _ Hwf Ho) as Hlt.
  destruct Hwf as [Hm Hd Ht Hs]. constructor; try done.
  intros K' k' l' Ho'. change (owner s (familyOf K') k' = Some l') in Ho'.
  simpl. destruct (decide (l' = l)) as [->|Hne].
  - destruct (Hs _ _ _ _ _ Ho Ho') as [<- <-].
    exists a. by apply list_lookup_insert_eq.
  - rewrite list_lookup_insert_ne by done. by apply (Ht K' k').
Qed.

Lemma evolves_store s F k l o :
  owner s (familyOf F) k = Some l -> evolves s (store l o s).
Proof.
  intros Ho. constructor; simpl; try done.
  - by rewrite length_insert.
  - intros l' _ Hn. apply list_lookup_insert_ne. intros <-.
    apply Hn. by exists F, k.
  - auto.
  - auto.
Qed.

Lemma acc_at_store_eq s K k l a :
  wf s -> owner s (familyOf K) k = Some l ->
  acc_at (store l (fam_in (familyOf K) a) s) (familyOf K) k = Some a.
Proof.
  intros Hwf Ho. pose proof (wf_owner_lt _ _ _ _ Hwf Ho) as Hlt.
  unfold acc_at, acc_of.
  change (entry_of _ _ _ _) with (owner s (familyOf K) k).
  rewrite Ho. simpl. rewrite list_lookup_insert_eq by done. simpl.
  apply fam_out_in.
Qed.

Lemma acc_at_store_ne s K k l o K' k' :
  wf s -> owner s (familyOf K) k = Some l -> K' <> K \/ k' <> k ->
  acc_at (store l o s) (familyOf K') k' = acc_at s (familyOf K') k'.
Proof.
  intros Hwf Ho Hne. unfold acc_at, acc_of.
  change (entry_of (heap (store l o s)) _ _ _) with (owner s (familyOf K') k').
  change (entry_of (heap s) _ _ _) with (owner s (familyOf K') k').
  destruct (owner s (familyOf K') k') as [l'|] eqn:Ho'; [|done]. simpl.
  rewrite list_lookup_insert_ne; [done|]. intros <-.
  destruct (wf_separate s Hwf _ _ _ _ _ Ho Ho') as [-> ->]. by destruct Hne.
Qed.

(** *** Adding an entry for a key the mapping lacks *)

Lemma mapping_owner s F k mp :
  mapping (heap s) (wm (self s)) F = Some mp -> owner s F k = mp !! k.
Proof. intros Hm. unfold owner, entry_of, map_lookup. unfold mapping in Hm. by rewrite Hm. Qed.

Lemma owner_adopt s K k a mp K' k' :
  wf s -> mapping (heap s) (wm (self s)) (familyOf K) = Some mp ->
  owner (adopt (familyOf K) k a mp s) (familyOf K') k' =
  if decide (K' = K) then <[k := length (objH (heap s))]> mp !! k'
  else owner s (familyOf K') k'.
Proof.
  intros Hwf Hm. unfold owner, entry_of, map_lookup, adopt. simpl.
  pose proof Hm as Hlt. apply lookup_lt_Some in Hlt.
  destruct (decide (K' = K)) as [->|Hne].
  - by rewrite list_lookup_insert_eq.
  - rewrite list_lookup_insert_ne; [done|].
    intros E. apply Hne. symmetry. by apply (wf_distinct s Hwf).
Qed.

Lemma owner_adopt_inv s K k a mp K' k' l :
  wf s -> mapping (heap s) (wm (self s)) (familyOf K) = Some mp ->
  owner (adopt (familyOf K) k a mp s) (familyOf K') k' = Some l ->
  (K' = K /\ k' = k /\ l = length (objH (heap s))) \/
  ((K' <> K \/ k' <> k) /\ owner s (familyOf K') k' = Some l).
Proof.
  intros Hwf Hm. rewrite owner_adopt by done.
  destruct (decide (K' = K)) as [->|Hne].
  - destruct (decide (k' = k)) as [->|Hk].
    + rewrite lookup_insert_eq. intros [= <-]. by left.
    + rewrite lookup_insert_ne by done. intros Hl. right. split; [by right|].
      by rewrite (mapping_owner _ _ _ _ Hm).
  - intros Hl. right. split; [by left|done].
Qed.

Lemma owner_adopt_eq s K k a mp :
  wf s -> mapping (heap s) (wm (self s)) (familyOf K) = Some mp ->
  owner (adopt (familyOf K) k a mp s) (familyOf K) k = Some (length (objH (heap s))).
Proof.
  intros Hwf Hm. rewrite owner_adopt by done.
  rewrite decide_True by done. apply lookup_insert_eq.
Qed.

Lemma owner_adopt_ne s K k a mp K' k' :
  wf s -> mapping (heap s) (wm (self s)) (familyOf K) = Some mp ->
  K' <> K \/ k' <> k ->
  owner (adopt (familyOf K) k a mp s) (familyOf K') k' = owner s (familyOf K') k'.
Proof.
  intros Hwf Hm Hne. rewrite owner_adopt by done.
  destruct (decide (K' = K)) as [->|HK]; [|done].
  destruct Hne as [?|Hk]; [done|].
  rewrite lookup_insert_ne by done. by rewrite (mapping_owner _ _ _ _ Hm).
Qed.

Lemma wf_adopt s K k a mp :
  wf s -> mapping (heap s) (wm (self s)) (familyOf K) = Some mp ->
  wf (adopt (familyOf K) k a mp s).
Proof.
  intros Hwf Hm. constructor.
  - intros K'. unfold mapping, adopt. simpl.
    apply lookup_lt_is_Some. rewrite length_insert.
    apply lookup_lt_is_Some. apply (wf_maps s Hwf K').
  - apply (wf_distinct s Hwf).
  - intros K' k' l Ho.
    destruct (owner_adopt_inv _ _ _ _ _ _ _ _ Hwf Hm Ho) as [(-> & -> & ->)|[_ Ho']].
    + exists a. unfold adopt. simpl. by rewrite list_lookup_middle.
    + destruct (wf_typed s Hwf _ _ _ Ho') as [a' Ha']. exists a'.
      unfold adopt. simpl. rewrite lookup_app_l; [done|]. by apply lookup_lt_Some in Ha'.
  - intros K1 K2 k1 k2 l H1 H2.
    destruct (owner_adopt_inv _ _ _ _ _ _ _ _ Hwf Hm H1) as [(-> & -> & ->)|[_ H1']];
    destruct (owner_adopt_inv _ _ _ _ _ _ _ _ Hwf Hm H2) as [(-> & -> & E)|[_ H2']].
    + done.
    + apply (wf_owner_lt _ _ _ _ Hwf) in H2'. lia.
    + apply (wf_owner_lt _ _ _ _ Hwf) in H1'. lia.
    + by apply (wf_separate s Hwf _ _ _ _ l).
Qed.

Lemma evolves_adopt s K k a mp :
  wf s -> mapping (heap s) (wm (self s)) (familyOf K) = Some mp ->
  evolves s (adopt (familyOf K) k a mp s).
Proof.
  intros Hwf Hm. constructor; unfold adopt; simpl.
  - by rewrite length_insert.
  - rewrite length_app. lia.
  - intros r _ Hn. apply list_lookup_insert_ne. intros <-. apply Hn. by exists K.
  - intros l Hl _. by apply lookup_app_l.
  - auto.
  - intros l (K' & k' & Ho).
    destruct (owner_adopt_inv _ _ _ _ _ _ _ _ Hwf Hm Ho) as [(-> & -> & ->)|[_ Ho']].
    + by right.
    + left. by exists K', k'.
Qed.

Lemma acc_at_adopt_eq s K k a mp :
  wf s -> mapping (heap s) (wm (self s)) (familyOf K) = Some mp ->
  acc_at (adopt (familyOf K) k a mp s) (familyOf K) k = Some a.
Proof.
  intros Hwf Hm. unfold acc_at, acc_of.
  change (entry_of _ _ _ _) with (owner (adopt (familyOf K) k a mp s) (familyOf K) k).
  rewrite owner_adopt_eq by done. unfold adopt. simpl.
  rewrite list_lookup_middle by done. simpl. apply fam_out_in.
Qed.

Lemma acc_at_adopt_ne s K k a mp K' k' :
  wf s -> mapping (heap s) (wm (self s)) (familyOf K) = Some mp ->
  K' <> K \/ k' <> k ->
  acc_at (adopt (familyOf K) k a mp s) (familyOf K') k' = acc_at s (familyOf K') k'.
Proof.
  intros Hwf Hm Hne. unfold acc_at, acc_of.
  change (entry_of (heap (adopt _ _ _ _ _)) _ _ _)
    with (owner (adopt (familyOf K) k a mp s) (familyOf K') k').
  change (entry_of (heap s) _ _ _) with (owner s (familyOf K') k').
  rewrite owner_adopt_ne by done.
  destruct (owner s (familyOf K') k') as [l|] eqn:Ho; [|done]. simpl.
  apply (wf_owner_lt _ _ _ _ Hwf) in Ho.
  unfold adopt. simpl. by rewrite lookup_app_l.
Qed.

End HeapTheory.

Section Methods.
Context `{Samplers}.

Lemma ensure_eq F k n t s :
  ensure F k n t s =
  let s0 := add_entry (mkEntry DebugLevel (FString "name" n) (fam_new_msg F)) s in
  match owner s F k with
  | Some _ => Done tt s
  | None =>
      match mapping (heap s) (wm (self s)) F with
      | Some mp => Done tt (adopt F k (fam_new F n t) mp s0)
      | None => Panic (push_obj (fam_in F (fam_new F n t)) s0)
      end
  end.
Proof.
  unfold ensure, owner, entry_of, mapping, mbind, M_bind, bind, get. simpl.
  destruct (map_lookup _ _ _) eqn:E; [done|].
  unfold log, modify, alloc, map_assign. simpl.
  by destruct (mapH (heap s) !! _).
Qed.

(** What [ensure] guarantees in a well-formed state: it returns, the key
    has an entry afterwards, the entry's accumulator is the one that was
    there or else a new, freshly allocated one, and nothing else moved. *)
Lemma ensure_spec K k n t s :
  let F := familyOf K in
  wf s ->
  exists s1 l,
    ensure F k n t s = Done tt s1 /\ wf s1 /\ evolves s s1 /\
    self s1 = self s /\ reported s1 = reported s /\
    owner s1 F k = Some l /\
    (owner s F k = Some l /\ s1 = s \/
     owner s F k = None /\ l = length (objH (heap s)) /\
     logged s1 = logged s ++ [mkEntry DebugLevel (FString "name" n) (fam_new_msg F)]) /\
    acc_at s1 F k = Some (default (fam_new F n t) (acc_at s F k)) /\
    (forall K' k', K' <> K \/ k' <> k ->
       acc_at s1 (familyOf K') k' = acc_at s (familyOf K') k').
Proof.
  intros F Hwf. subst F. rewrite ensure_eq. cbv zeta.
  destruct (owner s (familyOf K) k) as [l|] eqn:Ho.
  - exists s, l. destruct (wf_acc_at _ _ _ _ Hwf Ho) as (a & _ & Ha).
    split; [done|]. split; [done|]. split; [apply evolves_refl|].
    split; [done|]. split; [done|]. split; [done|].
    split; [by left|]. split; [by rewrite Ha|done].
  - destruct (wf_maps s Hwf K) as [mp Hm]. rewrite Hm.
    set (s0 := add_entry _ s).
    assert (Hwf0 : wf s0) by (by apply (wf_same s)).
    assert (Hm0 : mapping (heap s0) (wm (self s0)) (familyOf K) = Some mp) by done.
    exists (adopt (familyOf K) k (fam_new (familyOf K) n t) mp s0), (length (objH (heap s))).
    split; [done|]. split; [by apply wf_adopt|].
    split; [apply (evolves_trans _ s0); [by apply evolves_same|by apply evolves_adopt]|].
    split; [done|]. split; [done|].
    split; [by apply (owner_adopt_eq s0)|].
    split; [right; by repeat split|].
    split.
    + rewrite (acc_at_None s _ k Ho). by apply (acc_at_adopt_eq s0).
    + intros K' k' Hne. by rewrite (acc_at_adopt_ne s0).
Qed.

Lemma call_owned {R} F k l a (f : fam_T F -> fam_T F * R) s :
  owner s F k = Some l -> acc_at s F k = Some a ->
  call F (map_lookup (heap s) (fam_map F (wm (self s))) k) f s =
  Done (f a).2 (store l (fam_in F (f a).1) s).
Proof.
  intros Ho Ha. unfold acc_at, acc_of in Ha. unfold owner in Ho.
  rewrite Ho in Ha. unfold entry_of in Ho. rewrite Ho. simpl in Ha.
  unfold call. by rewrite Ha.
Qed.

(** One case of the switch, on a value of the type it asserts. *)
Lemma sample_case_spec K m s v :
  let F := familyOf K in
  wf s -> fam_assert F (Value m) = Some v ->
  exists s' l,
    sample_case F m s = Done tt s' /\ wf s' /\ evolves s s' /\
    self s' = self s /\ reported s' = reported s /\
    owner s' F (Key m) = Some l /\
    (owner s F (Key m) = Some l /\ logged s' = logged s \/
     owner s F (Key m) = None /\ l = length (objH (heap s)) /\
     logged s' = logged s ++
       [mkEntry DebugLevel (FString "name" (Name (Key m))) (fam_new_msg F)]) /\
    acc_at s' F (Key m) =
      Some (fam_sample F (default (fam_new F (Name (Key m)) (Tags m))
                            (acc_at s F (Key m))) v (SampleRate m)) /\
    (forall K' k', K' <> K \/ k' <> Key m ->
       acc_at s' (familyOf K') k' = acc_at s (familyOf K') k').
Proof.
  intros F Hwf Hv. subst F.
  destruct (ensure_spec K (Key m) (Name (Key m)) (Tags m) s Hwf)
    as (s1 & l & He & Hwf1 & Hev & Hself & Hrep & Ho & Hcase & Hacc & Hfr).
  set (F := familyOf K) in *.
  set (a0 := default (fam_new F (Name (Key m)) (Tags m)) (acc_at s F (Key m))) in *.
  exists (store l (fam_in F (fam_sample F a0 v (SampleRate m))) s1), l.
  split.
  { unfold sample_case, mbind, M_bind, bind, get. rewrite He, Hv.
    by rewrite (call_owned F (Key m) l a0). }
  split; [by apply (wf_store s1 K (Key m))|].
  split; [apply (evolves_trans _ s1); [done|by apply (evolves_store s1 K (Key m))]|].
  split; [done|]. split; [done|]. split; [done|].
  split.
  { destruct Hcase as [[? ->]|(? & ? & ?)]; [by left|by right]. }
  split; [by apply (acc_at_store_eq s1 K)|].
  intros K' k' Hne. rewrite (acc_at_store_ne s1 K (Key m)) by done. by apply Hfr.
Qed.

(** One case of the switch, on a value of the wrong type: the type
    assertion panics after the entry has been made. *)
Lemma sample_case_panics K m s :
  let F := familyOf K in
  wf s -> fam_assert F (Value m) = None ->
  exists s', sample_case F m s = Panic s' /\ wf s' /\ evolves s s'.
Proof.
  intros F Hwf Hv. subst F.
  destruct (ensure_spec K (Key m) (Name (Key m)) (Tags m) s Hwf)
    as (s1 & l & He & Hwf1 & Hev & _).
  exists s1. split; [|done].
  unfold sample_case, mbind, M_bind, bind, get. by rewrite He, Hv.
Qed.

Lemma sample_case_sound K m s :
  wf s ->
  wf (final (sample_case (familyOf K) m s)) /\
  evolves s (final (sample_case (familyOf K) m s)).
Proof.
  intros Hwf. destruct (fam_assert (familyOf K) (Value m)) as [v|] eqn:Hv.
  - pose proof (sample_case_spec K m s v Hwf Hv) as Hs. cbv zeta in Hs.
    destruct Hs as (s' & l & -> & ? & ? & _). done.
  - pose proof (sample_case_panics K m s Hwf Hv) as Hs. cbv zeta in Hs.
    destruct Hs as (s' & -> & ? & ?). done.
Qed.

Lemma ProcessMetric_kind m s K :
  kind_of (Type' (Key m)) = Some K ->
  ProcessMetric m s = sample_case (familyOf K) m (set_self incr_processed s).
Proof.
  unfold kind_of, ProcessMetric, mbind, M_bind, bind, modify.
  repeat case_match; by intros [= <-].
Qed.

Lemma ProcessMetric_unknown m s :
  kind_of (Type' (Key m)) = None ->
  ProcessMetric m s =
  Done tt (add_entry (mkEntry ErrorLevel (FString "type" (Type' (Key m)))
                        "Unknown metric type for processing")
             (set_self incr_processed s)).
Proof.
  unfold kind_of, ProcessMetric, mbind, M_bind, bind, modify.
  repeat case_match; by intros [=].
Qed.

End Methods.

Section Soundness.
Context `{Samplers}.

Lemma merge_error_logged (err : option string) (s : State) :
  match err with
  | Some e => log ErrorLevel (FError e) "Could not merge sets"
  | None => mret tt
  end s =
  match err with
  | Some e => Done tt (add_entry (mkEntry ErrorLevel (FError e) "Could not merge sets") s)
  | None => Done tt s
  end.
Proof. by destruct err. Qed.

(** [ImportMetric] of a set, in a well-formed state: it returns; the key's
    accumulator is what [Combine] left of the one that was there, or of a
    new one; the error, if any, is logged. *)
Lemma ImportMetric_set j s :
  wf s -> Type' (JKey j) = "set" ->
  let k := JKey j in
  let a0 := default (NewSet (Name k) (JTags j)) (acc_at s setF k) in
  let res := Set_Combine a0 (JValue j) in
  exists s' l,
    ImportMetric j s = Done tt s' /\ wf s' /\ evolves s s' /\
    self s' = incr_imported (self s) /\ reported s' = reported s /\
    owner s' setF k = Some l /\
    (owner s setF k = Some l \/
     owner s setF k = None /\ l = length (objH (heap s))) /\
    acc_at s' setF k = Some res.1 /\
    (forall K' k', K' <> KSet \/ k' <> k ->
       acc_at s' (familyOf K') k' = acc_at s (familyOf K') k') /\
    logged s' =
      logged s ++
      (match owner s setF k with
       | Some _ => []
       | None => [mkEntry DebugLevel (FString "name" (Name k)) "New set"]
       end) ++
      (match res.2 with
       | Some e => [mkEntry ErrorLevel (FError e) "Could not merge sets"]
       | None => []
       end).
Proof.
  intros Hwf Ht k a0 res.
  set (s0 := set_self incr_imported s).
  assert (Hwf0 : wf s0) by (by apply (wf_same s)).
  destruct (ensure_spec KSet k (Name k) (JTags j) s0 Hwf0)
    as (s1 & l & He & Hwf1 & Hev & Hself & Hrep & Ho & Hcase & Hacc & Hfr).
  change (familyOf KSet) with setF in *.
  change (acc_at s0 setF k) with (acc_at s setF k) in Hacc.
  change (owner s0 setF k) with (owner s setF k) in Hcase.
  change (fam_new setF (Name k) (JTags j)) with (NewSet (Name k) (JTags j)) in Hacc.
  fold a0 in Hacc.
  set (s2 := store l (fam_in setF res.1) s1).
  assert (Hwf2 : wf s2) by (by apply (wf_store s1 KSet k)).
  assert (Hev2 : evolves s s2).
  { apply (evolves_trans _ s0); [by apply evolves_same|].
    apply (evolves_trans _ s1); [done|]. by apply (evolves_store s1 KSet k). }
  assert (Hrun : ImportMetric j s =
    match res.2 with
    | Some e => Done tt (add_entry (mkEntry ErrorLevel (FError e) "Could not merge sets") s2)
    | None => Done tt s2
    end).
  { unfold ImportMetric, mbind, M_bind, bind, modify, get. rewrite Ht. simpl.
    fold s0 k. rewrite He.
    change (sets (wm (self s1))) with (fam_map setF (wm (self s1))).
    rewrite (call_owned setF k l a0 _ s1 Ho Hacc).
    exact (merge_error_logged res.2 s2). }
  assert (Hlog : logged s2 = logged s ++
      (match owner s setF k with
       | Some _ => []
       | None => [mkEntry DebugLevel (FString "name" (Name k)) "New set"]
       end)).
  { destruct Hcase as [[Ho' ->]|(Ho' & _ & Hl)]; rewrite Ho'; simpl.
    - by rewrite app_nil_r.
    - done. }
  assert (Hacc2 : acc_at s2 setF k = Some res.1) by (by apply (acc_at_store_eq s1 KSet)).
  assert (Hfr2 : forall K' k', K' <> KSet \/ k' <> k ->
     acc_at s2 (familyOf K') k' = acc_at s (familyOf K') k').
  { intros K' k' Hne. unfold s2. rewrite (acc_at_store_ne s1 KSet k) by done.
    by rewrite Hfr. }
  assert (Hown : owner s setF k = Some l \/
     owner s setF k = None /\ l = length (objH (heap s))).
  { destruct Hcase as [[? _]|(? & ? & _)]; [by left|by right]. }
  rewrite Hrun. destruct res.2 as [e|].
  - exists (add_entry (mkEntry ErrorLevel (FError e) "Could not merge sets") s2), l.
    split; [done|]. split; [by apply (wf_same s2)|].
    split; [apply (evolves_trans _ s2); [done|by apply evolves_same]|].
    split; [simpl; by rewrite Hself|]. split; [done|]. split; [done|].
    split; [done|]. split; [done|]. split; [done|].
    unfold add_entry at 1. cbn [logged]. by rewrite Hlog, <- app_assoc.
  - exists s2, l.
    split; [done|]. split; [done|]. split; [done|].
    split; [simpl; by rewrite Hself|]. split; [done|]. split; [done|].
    split; [done|]. split; [done|]. split; [done|].
    by rewrite Hlog, app_nil_r.
Qed.

Lemma ImportMetric_sound j s :
  wf s -> wf (final (ImportMetric j s)) /\ evolves s (final (ImportMetric j s)).
Proof.
  intros Hwf. destruct (decide (Type' (JKey j) = "set")) as [Ht|Ht].
  - pose proof (ImportMetric_set j s Hwf Ht) as Hs. cbv zeta in Hs.
    destruct Hs as (s' & l & -> & ? & ? & _). done.
  - rewrite (ImportMetric_unsupported j s Ht). simpl.
    split; [by apply (wf_same s)|by apply evolves_same].
Qed.

Lemma ProcessMetric_sound m s :
  wf s -> wf (final (ProcessMetric m s)) /\ evolves s (final (ProcessMetric m s)).
Proof.
  intros Hwf. destruct (kind_of (Type' (Key m))) as [K|] eqn:HK.
  - rewrite (ProcessMetric_kind m s K HK).
    set (s0 := set_self incr_processed s).
    assert (Hwf0 : wf s0) by (by apply (wf_same s)).
    destruct (sample_case_sound K m s0 Hwf0) as [? ?]. split; [done|].
    apply (evolves_trans _ s0); [by apply evolves_same|done].
  - rewrite (ProcessMetric_unknown m s HK). simpl.
    split; [by apply (wf_same s)|by apply evolves_same].
Qed.

(** *** [Flush] installs a fresh, empty snapshot *)

Lemma NewWorkerMetrics_eq h :
  let n := length (mapH h) in
  NewWorkerMetrics h =
  (mkWorkerMetrics n (n + 1) (n + 2) (n + 3) (n + 4),
   mkHeap (mapH h ++ [∅; ∅; ∅; ∅; ∅]) (objH h)).
Proof.
  unfold NewWorkerMetrics, make_map, set_mapH. simpl.
  rewrite !length_app. simpl. f_equal.
  - f_equal; lia.
  - f_equal. by rewrite <- !app_assoc.
Qed.

Lemma mapping_flushed e s K :
  mapping (heap (flushed e s)) (wm (self (flushed e s))) (familyOf K) = Some ∅.
Proof.
  unfold flushed, mapping. cbn [heap self wm].
  rewrite NewWorkerMetrics_eq. cbn [fst snd mapH].
  destruct K; simpl; rewrite lookup_app_r by lia;
    match goal with |- _ !! ?i = _ => replace i with (i - 0)%nat by lia end.
  - by replace (length (mapH (heap s)) - length (mapH (heap s)) - 0)%nat with 0%nat by lia.
  - by replace (length (mapH (heap s)) + 1 - length (mapH (heap s)) - 0)%nat with 1%nat by lia.
  - by replace (length (mapH (heap s)) + 2 - length (mapH (heap s)) - 0)%nat with 2%nat by lia.
  - by replace (length (mapH (heap s)) + 3 - length (mapH (heap s)) - 0)%nat with 3%nat by lia.
  - by replace (length (mapH (heap s)) + 4 - length (mapH (heap s)) - 0)%nat with 4%nat by lia.
Qed.

Lemma owner_flushed e s K k : owner (flushed e s) (familyOf K) k = None.
Proof. by rewrite (mapping_owner _ _ _ ∅ (mapping_flushed e s K)). Qed.

Lemma fam_map_flushed e s K :
  (length (mapH (heap s)) <= fam_map (familyOf K) (wm (self (flushed e s))))%nat.
Proof.
  unfold flushed. cbn [heap self wm]. rewrite NewWorkerMetrics_eq.
  destruct K; simpl; lia.
Qed.

Lemma wf_flushed e s : wf (flushed e s).
Proof.
  constructor.
  - intros K. by rewrite mapping_flushed.
  - unfold flushed. cbn [heap self wm]. rewrite NewWorkerMetrics_eq.
    intros [] []; simpl; intros; first [done | lia].
  - intros K k l. by rewrite owner_flushed.
  - intros K K' k k' l. by rewrite owner_flushed.
Qed.

Lemma heap_flushed e s :
  mapH (heap (flushed e s)) = mapH (heap s) ++ [∅; ∅; ∅; ∅; ∅] /\
  objH (heap (flushed e s)) = objH (heap s).
Proof. unfold flushed. cbn [heap]. by rewrite NewWorkerMetrics_eq. Qed.

Lemma evolves_flushed e s : evolves s (flushed e s).
Proof.
  destruct (heap_flushed e s) as [Hm Ho].
  constructor; rewrite ?Hm, ?Ho; try done.
  - rewrite length_app. lia.
  - intros r Hr _. by apply lookup_app_l.
  - intros r [K ->]. right. apply fam_map_flushed.
  - intros l (K & k & Hl). by rewrite owner_flushed in Hl.
Qed.

Lemma step_sound o s :
  wf s -> wf (final (step o s)) /\ evolves s (final (step o s)).
Proof.
  intros Hwf. destruct o as [m|j|e]; unfold step.
  - by apply ProcessMetric_sound.
  - by apply ImportMetric_sound.
  - rewrite final_bind, Flush_eq. simpl.
    split; [apply wf_flushed|apply evolves_flushed].
Qed.

Lemma run_sound os s :
  wf s -> wf (final (run os s)) /\ evolves s (final (run os s)).
Proof.
  revert s. induction os as [|o os IH]; intros s Hwf; cbn [run].
  - split; [done|apply evolves_refl].
  - rewrite final_bind. destruct (step_sound o s Hwf) as [Hwf' Hev].
    destruct (step o s) as [[] s'|s']; simpl in *; [|done].
    destruct (IH s' Hwf') as [? ?]. split; [done|].
    by apply (evolves_trans _ s').
Qed.

Lemma wf_NewWorker i : wf (NewWorker i).
Proof.
  change (NewWorker i) with
    (mkState (mkWorker i 0 0 (mkWorkerMetrics 0 1 2 3 4))
       (mkHeap [∅; ∅; ∅; ∅; ∅] []) [] []).
  constructor.
  - intros []; by eexists.
  - intros [] []; simpl; intros; first [done | lia].
  - intros [] k l; unfold owner, entry_of, map_lookup; simpl; by rewrite lookup_empty.
  - intros [] K' k k' l; unfold owner, entry_of, map_lookup; simpl; by rewrite lookup_empty.
Qed.

Lemma isolated_evolves r h1 s s' :
  isolated r h1 s -> evolves s s' -> isolated r h1 s'.
Proof.
  intros [Hm Ho] [a b c d e f]. split.
  - intros K. destruct (Hm K) as (Hlt & Hn & Heq). split; [lia|]. split.
    + intros Hf. destruct (e _ Hf); [done|lia].
    + by rewrite c.
  - intros K k l Hl. destruct (Ho K k l Hl) as (Hlt & Hn & Heq). split; [lia|]. split.
    + intros Hf. destruct (f _ Hf); [done|lia].
    + by rewrite d.
Qed.

Lemma isolated_flushed e s :
  wf s -> isolated (wm (self s)) (heap (flushed e s)) (flushed e s).
Proof.
  intros Hwf. destruct (heap_flushed e s) as [Hm Ho].
  assert (Hlt : forall K, (fam_map (familyOf K) (wm (self s)) < length (mapH (heap s)))%nat).
  { intros K. apply lookup_lt_is_Some. apply (wf_maps s Hwf K). }
  split.
  - intros K. split; [rewrite Hm, length_app; specialize (Hlt K); lia|]. split; [|done].
    intros [K' E]. pose proof (fam_map_flushed e s K'). specialize (Hlt K). lia.
  - intros K k l Hl.
    assert (Hown : owner s (familyOf K) k = Some l).
    { unfold owner, entry_of, map_lookup in *. rewrite Hm in Hl.
      by rewrite lookup_app_l in Hl. }
    split; [rewrite Ho; by apply (wf_owner_lt s K k)|]. split; [|done].
    intros (K' & k' & Hf). by rewrite owner_flushed in Hf.
Qed.

(** The maps of the old snapshot are where they were after the flush. *)
Lemma mapping_flushed_old e s K :
  wf s ->
  mapping (heap (flushed e s)) (wm (self s)) (familyOf K) =
  mapping (heap s) (wm (self s)) (familyOf K).
Proof.
  intros Hwf. unfold mapping. rewrite (proj1 (heap_flushed e s)).
  apply lookup_app_l. apply lookup_lt_is_Some. apply (wf_maps s Hwf K).
Qed.

Lemma map_len_mapping h r F m :
  mapping h r F = Some m -> map_len h (fam_map F r) = Z.of_nat (size m).
Proof. unfold mapping, map_len. by intros ->. Qed.

(** Reading the old snapshot right after the flush gives what the worker
    had accumulated. *)
Lemma acc_of_flushed e s K k :
  wf s ->
  acc_of (heap (flushed e s)) (wm (self s)) (familyOf K) k = acc_at s (familyOf K) k.
Proof.
  intros Hwf. destruct (heap_flushed e s) as [Hm Ho].
  unfold acc_at, acc_of, entry_of, map_lookup. rewrite Hm, Ho.
  rewrite lookup_app_l; [done|].
  apply lookup_lt_is_Some. apply (wf_maps s Hwf K).
Qed.

End Soundness.

Section Windows.
Context `{Samplers}.

(** C1: after [Flush] both counters are zero and the five mappings of the
    live snapshot are empty; the next well-typed sample of any key (seen
    before the flush or not) gets an accumulator at a location that was not
    allocated before the flush, holding one [Sample] of a newly constructed
    accumulator. *)
Theorem window_reset (s : State) (e : float64) :
  let s1 := flushed e s in
  Flush e s = Done (wm (self s)) s1 /\
  processed (self s1) = 0 /\ imported (self s1) = 0 /\
  (forall K, mapping (heap s1) (wm (self s1)) (familyOf K) = Some ∅) /\
  (forall m K v,
     kind_of (Type' (Key m)) = Some K ->
     fam_assert (familyOf K) (Value m) = Some v ->
     exists s2 l,
       ProcessMetric m s1 = Done tt s2 /\
       owner s2 (familyOf K) (Key m) = Some l /\
       objH (heap s) !! l = None /\
       acc_at s2 (familyOf K) (Key m) =
         Some (fam_sample (familyOf K)
                 (fam_new (familyOf K) (Name (Key m)) (Tags m)) v (SampleRate m))).
Proof.
  cbv zeta. split; [apply Flush_eq|]. split; [done|]. split; [done|].
  split; [apply mapping_flushed|].
  intros m K v HK Hv. rewrite (ProcessMetric_kind _ _ K HK).
  set (s0 := set_self incr_processed (flushed e s)).
  assert (Hwf0 : wf s0) by (apply (wf_same (flushed e s)); [done|done|apply wf_flushed]).
  pose proof (sample_case_spec K m s0 v Hwf0 Hv) as Hs. cbv zeta in Hs.
  destruct Hs as (s2 & l & Hrun & _ & _ & _ & _ & Ho & Hcase & Hacc & _).
  assert (Hnone : owner s0 (familyOf K) (Key m) = None) by apply owner_flushed.
  destruct Hcase as [[Hsome _]|(_ & Hl & _)]; [congruence|].
  assert (Hl' : l = length (objH (heap s))).
  { rewrite Hl. change (heap s0) with (heap (flushed e s)).
    by rewrite (proj2 (heap_flushed e s)). }
  exists s2, l. split; [done|]. split; [done|].
  split; [apply lookup_ge_None_2; lia|].
  by rewrite Hacc, (acc_at_None _ _ _ Hnone).
Qed.

End Windows.

Section Routing.
Context `{Samplers}.

Lemma kind_of_key_eq m k K K' :
  Key m = k -> kind_of (Type' (Key m)) = Some K -> kind_of (Type' k) = Some K' -> K = K'.
Proof. intros ->. congruence. Qed.

(** One processed sample, seen from the accumulator of a key [k]. *)
Lemma ProcessMetric_fold m s :
  wf s -> well_typed m ->
  exists s',
    ProcessMetric m s = Done tt s' /\ wf s' /\
    forall K k, kind_of (Type' k) = Some K ->
      acc_at s' (familyOf K) k =
      if decide (Key m = k)
      then sample_with (familyOf K)
             (default (fam_new (familyOf K) (Name (Key m)) (Tags m))
                (acc_at s (familyOf K) k)) m
      else acc_at s (familyOf K) k.
Proof.
  intros Hwf Ht. unfold well_typed in Ht.
  destruct (kind_of (Type' (Key m))) as [Km|] eqn:HK.
  - destruct Ht as [v Hv]. rewrite (ProcessMetric_kind m s Km HK).
    set (s0 := set_self incr_processed s).
    assert (Hwf0 : wf s0) by (by apply (wf_same s)).
    pose proof (sample_case_spec Km m s0 v Hwf0 Hv) as Hs. cbv zeta in Hs.
    destruct Hs as (s' & l & Hrun & Hwf' & _ & _ & _ & _ & _ & Hacc & Hfr).
    exists s'. split; [done|]. split; [done|].
    intros K k Hk. destruct (decide (Key m = k)) as [E|E].
    + assert (Km = K) as -> by (by apply (kind_of_key_eq m k)). subst k.
      rewrite Hacc. unfold sample_with. by rewrite Hv.
    + rewrite Hfr; [done|]. right. congruence.
  - rewrite (ProcessMetric_unknown m s HK). eexists. split; [done|].
    split; [by apply (wf_same s)|].
    intros K k Hk. destruct (decide (Key m = k)) as [E|E]; [|done].
    subst k. congruence.
Qed.

(** C2: a worker that processes any sequence of well-typed samples ends
    with, for every key [k], the left fold of [Sample] over the samples of
    key [k] in delivery order; the samples of other keys in between do not
    show in it. *)
Theorem routing_fold (s : State) (ms : list UDPMetric) :
  wf s -> Forall well_typed ms ->
  exists s',
    run (OpProcess <$> ms) s = Done tt s' /\
    forall K k, kind_of (Type' k) = Some K ->
      acc_at s' (familyOf K) k =
      fold_samples (familyOf K) (acc_at s (familyOf K) k)
        (filter (fun m => Key m = k) ms).
Proof.
  intros Hwf Hms. revert s Hwf.
  induction Hms as [|m ms Hm Hms IH]; intros s Hwf.
  - exists s. by split.
  - destruct (ProcessMetric_fold m s Hwf Hm) as (s1 & Hrun & Hwf1 & Hacc).
    destruct (IH s1 Hwf1) as (s' & Hrun' & Hacc').
    exists s'. split.
    + rewrite fmap_cons. cbn [run]. unfold mbind, M_bind, bind, step.
      rewrite Hrun. exact Hrun'.
    + intros K k Hk. rewrite (Hacc' K k Hk), (Hacc K k Hk).
      rewrite filter_cons. by destruct (decide (Key m = k)).
Qed.

End Routing.

Section Ownership.
Context `{Samplers}.

(** C7: the snapshot that [Flush] returns is out of the worker's reach.
    Whatever sequence of [ProcessMetric], [ImportMetric] and [Flush] calls
    follows (up to its end or its first panic), the worker's live snapshot
    shares no map with the returned one, no entry of the live snapshot
    points to an accumulator of the returned one, and the returned maps
    and the accumulators they point to hold what they held when the flush
    returned: what the worker had accumulated. *)
Theorem flushed_snapshot_isolated (s : State) (e : float64) (os : list op) :
  wf s ->
  let r := wm (self s) in
  let s1 := flushed e s in
  let s2 := final (run os s1) in
  Flush e s = Done r s1 /\
  (forall K K', fam_map (familyOf K') (wm (self s2)) <> fam_map (familyOf K) r) /\
  (forall K k l, entry_of (heap s1) r (familyOf K) k = Some l ->
     forall K' k', owner s2 (familyOf K') k' <> Some l) /\
  (forall K, mapping (heap s2) r (familyOf K) = mapping (heap s) r (familyOf K)) /\
  (forall K k l, entry_of (heap s) r (familyOf K) k = Some l ->
     objH (heap s2) !! l = objH (heap s) !! l) /\
  (forall K k, acc_of (heap s2) r (familyOf K) k = acc_at s (familyOf K) k).
Proof.
  intros Hwf r s1 s2.
  destruct (run_sound os s1 (wf_flushed e s)) as [_ Hev]. fold s2 in Hev.
  pose proof (isolated_evolves r (heap s1) s1 s2 (isolated_flushed e s Hwf) Hev)
    as [Hmaps Hobjs].
  destruct (heap_flushed e s) as [Hm Ho]. fold s1 in Hm, Ho.
  assert (Hlt : forall K, (fam_map (familyOf K) r < length (mapH (heap s)))%nat).
  { intros K. apply lookup_lt_is_Some. apply (wf_maps s Hwf K). }
  assert (Hmap1 : forall K, mapping (heap s1) r (familyOf K) = mapping (heap s) r (familyOf K)).
  { intros K. unfold mapping. rewrite Hm. by apply lookup_app_l. }
  assert (Hent1 : forall K k, entry_of (heap s1) r (familyOf K) k = owner s (familyOf K) k).
  { intros K k. unfold owner, entry_of, map_lookup. fold r.
    change (mapH (heap s1) !! fam_map (familyOf K) r) with (mapping (heap s1) r (familyOf K)).
    by rewrite Hmap1. }
  assert (Hmap2 : forall K, mapping (heap s2) r (familyOf K) = mapping (heap s) r (familyOf K)).
  { intros K. rewrite <- Hmap1. unfold mapping. by destruct (Hmaps K) as (_ & _ & ->). }
  assert (Hobj2 : forall K k l, entry_of (heap s) r (familyOf K) k = Some l ->
     objH (heap s2) !! l = objH (heap s) !! l).
  { intros K k l Hl. change (owner s (familyOf K) k = Some l) in Hl.
    rewrite <- Hent1 in Hl. destruct (Hobjs K k l Hl) as (_ & _ & ->). by rewrite Ho. }
  split; [apply Flush_eq|].
  split.
  { intros K K' E. destruct (Hmaps K) as (_ & Hn & _). apply Hn. by exists K'. }
  split.
  { intros K k l Hl K' k' Hown. destruct (Hobjs K k l Hl) as (_ & Hn & _).
    apply Hn. by exists K', k'. }
  split; [done|]. split; [done|].
  intros K k. unfold acc_at, acc_of, entry_of, map_lookup. fold r.
  change (mapH (heap s2) !! fam_map (familyOf K) r) with (mapping (heap s2) r (familyOf K)).
  change (mapH (heap s) !! fam_map (familyOf K) r) with (mapping (heap s) r (familyOf K)).
  rewrite Hmap2.
  destruct (mapping (heap s) r (familyOf K) ≫= (λ m, m !! k)) as [l|] eqn:Hl; [|done].
  simpl. by rewrite (Hobj2 K k l).
Qed.

(** C6, as the code has it: when [Combine] rejects the encoded state and
    leaves its receiver as it was, the import returns, the rejection is
    logged, an accumulator that the key had keeps its content and every
    other accumulator is untouched; a key that had no entry is left with a
    new, empty set, which the next flush hands out. *)
Theorem rejected_import_leaves_entry (j : JSONMetric) (s : State) (err : string) :
  let k := JKey j in
  let a0 := default (NewSet (Name k) (JTags j)) (acc_at s setF k) in
  wf s -> Type' k = "set" ->
  Set_Combine a0 (JValue j) = (a0, Some err) ->
  exists s',
    ImportMetric j s = Done tt s' /\
    acc_at s' setF k = Some a0 /\
    (forall a, acc_at s setF k = Some a -> acc_at s' setF k = Some a) /\
    (acc_at s setF k = None -> acc_at s' setF k = Some (NewSet (Name k) (JTags j))) /\
    (forall K' k', K' <> KSet \/ k' <> k ->
       acc_at s' (familyOf K') k' = acc_at s (familyOf K') k') /\
    last (logged s') = Some (mkEntry ErrorLevel (FError err) "Could not merge sets") /\
    (forall e, exists r s'',
       Flush e s' = Done r s'' /\ acc_of (heap s'') r setF k = Some a0).
Proof.
  intros k a0 Hwf Ht Hc.
  pose proof (ImportMetric_set j s Hwf Ht) as Hs. cbv zeta in Hs.
  fold k in Hs. fold a0 in Hs. rewrite Hc in Hs. simpl in Hs.
  destruct Hs as (s' & l & Hrun & Hwf' & _ & _ & _ & _ & _ & Hacc & Hfr & Hlog).
  exists s'. split; [done|]. split; [done|].
  split; [intros a Ha; rewrite Hacc; unfold a0; by rewrite Ha|].
  split; [intros Ha; rewrite Hacc; unfold a0; by rewrite Ha|].
  split; [done|].
  split; [rewrite Hlog, app_assoc; apply last_snoc|].
  intros e. exists (wm (self s')), (flushed e s'). split; [apply Flush_eq|].
  change setF with (familyOf KSet). by rewrite acc_of_flushed.
Qed.

End Ownership.

Section Boundaries.
Context `{Samplers}.

(** C3, as the code has it: [Flush] returns the snapshot alone.  The two
    counters of the window go to the statistics client, as the values of
    [worker.metrics_processed_total] and [worker.metrics_imported_total],
    together with the flush duration and the sizes of the five mappings
    of the returned snapshot. *)
Theorem Flush_returns_snapshot (e : float64) (s : State) :
  exists s',
    Flush e s = Done (wm (self s)) s' /\
    heap s' = (NewWorkerMetrics (heap s)).2 /\
    logged s' = logged s /\
    reported s' = reported s ++
      [TimeInMilliseconds "flush.worker_duration_ns" e [] 1;
       Count "worker.metrics_processed_total" (processed (self s))
         [worker_tag (id (self s))] 1;
       Count "worker.metrics_imported_total" (imported (self s))
         [worker_tag (id (self s))] 1;
       Count "worker.metrics_flushed_total"
         (map_len (heap s) (counters (wm (self s)))) ["metric_type:counter"] 1;
       Count "worker.metrics_flushed_total"
         (map_len (heap s) (gauges (wm (self s)))) ["metric_type:gauge"] 1;
       Count "worker.metrics_flushed_total"
         (map_len (heap s) (histograms (wm (self s)))) ["metric_type:histogram"] 1;
       Count "worker.metrics_flushed_total"
         (map_len (heap s) (sets (wm (self s)))) ["metric_type:set"] 1;
       Count "worker.metrics_flushed_total"
         (map_len (heap s) (timers (wm (self s)))) ["metric_type:timer"] 1].
Proof. exists (flushed e s). split; [apply Flush_eq|done]. Qed.

(** C9, as the code has it: shutdown is looked at only by the [select] at
    the top of the loop, so a sample that has been received is processed
    to the end.  While [QuitChan] is open an offered sample is received
    whatever the runtime draws; once it is closed and nothing is offered
    the loop returns; when a sample is offered and [QuitChan] is closed
    the draw decides: either the sample is processed and the loop goes on,
    or the loop returns and the sample stays with its sender. *)
Theorem shutdown_observed_at_select
    (coin : bool) (coins : list bool) (m : UDPMetric) (ms : list UDPMetric) (s : State) :
  let stopping := mkEntry ErrorLevel (FInt "worker" (id (self s))) "Stopping" in
  let go_on c :=
    match ProcessMetric m s with
    | Done _ s' => Work coins c s'
    | Panic s' => (Crashed, c, s')
    end in
  Work (coin :: coins) (mkChans (m :: ms) false) s = go_on (mkChans ms false) /\
  Work (coin :: coins) (mkChans [] true) s = (Returned, mkChans [] true, add_entry stopping s) /\
  Work (coin :: coins) (mkChans [] false) s = (Blocked, mkChans [] false, s) /\
  Work (true :: coins) (mkChans (m :: ms) true) s = go_on (mkChans ms true) /\
  Work (false :: coins) (mkChans (m :: ms) true) s =
    (Returned, mkChans (m :: ms) true, add_entry stopping s) /\
  Stop (mkChans (m :: ms) false) = Some (mkChans (m :: ms) true).
Proof. cbv zeta. by destruct coin. Qed.

(** C8: three [counter "requests" 1 @1.0] and one [gauge "cpu" 0.5 @1.0]
    on a fresh worker, then a flush.  At the flush [processed] is 4 and
    [imported] is 0 (and so reported); the returned snapshot has one
    counter, for "requests", which is a new counter sampled three times
    with 1 at rate 1, one gauge, for "cpu", which is a new gauge sampled
    once with 0.5 at rate 1, and no histogram, set or timer. *)
Theorem scenario_requests_cpu (i : Z) (e : float64) :
  exists s4 r s5 lc lg,
    run [OpProcess requests; OpProcess requests; OpProcess requests; OpProcess cpu]
      (NewWorker i) = Done tt s4 /\
    processed (self s4) = 4 /\ imported (self s4) = 0 /\
    Flush e s4 = Done r s5 /\
    mapping (heap s5) r counterF = Some {[Key requests := lc]} /\
    acc_of (heap s5) r counterF (Key requests) =
      Some (Counter_Sample (Counter_Sample (Counter_Sample
              (NewCounter "requests" []) 1 1) 1 1) 1 1) /\
    mapping (heap s5) r gaugeF = Some {[Key cpu := lg]} /\
    acc_of (heap s5) r gaugeF (Key cpu) = Some (Gauge_Sample (NewGauge "cpu" []) 0.5 1) /\
    mapping (heap s5) r histogramF = Some ∅ /\
    mapping (heap s5) r setF = Some ∅ /\
    mapping (heap s5) r timerF = Some ∅ /\
    Count "worker.metrics_processed_total" 4 [worker_tag i] 1 ∈ reported s5 /\
    Count "worker.metrics_imported_total" 0 [worker_tag i] 1 ∈ reported s5 /\
    Count "worker.metrics_flushed_total" 1 ["metric_type:counter"] 1 ∈ reported s5 /\
    Count "worker.metrics_flushed_total" 1 ["metric_type:gauge"] 1 ∈ reported s5.
Proof.
  pose (os := [OpProcess requests; OpProcess requests; OpProcess requests; OpProcess cpu]).
  pose (s4 := final (run os (NewWorker i))).
  assert (Hrun : run os (NewWorker i) = Done tt s4) by (vm_compute; reflexivity).
  assert (Hwf : wf s4) by (apply run_sound, wf_NewWorker).
  assert (Hp : processed (self s4) = 4) by (vm_compute; reflexivity).
  assert (Hi : imported (self s4) = 0) by (vm_compute; reflexivity).
  assert (Hid : id (self s4) = i) by (vm_compute; reflexivity).
  assert (Hrep : reported s4 = []) by (vm_compute; reflexivity).
  assert (Hmc : mapping (heap s4) (wm (self s4)) counterF
                = Some {[Key requests := 0%nat]}) by decide_by_vm.
  assert (Hmg : mapping (heap s4) (wm (self s4)) gaugeF
                = Some {[Key cpu := 1%nat]}) by decide_by_vm.
  assert (Hmh : mapping (heap s4) (wm (self s4)) histogramF = Some ∅) by decide_by_vm.
  assert (Hms : mapping (heap s4) (wm (self s4)) setF = Some ∅) by decide_by_vm.
  assert (Hmt : mapping (heap s4) (wm (self s4)) timerF = Some ∅) by decide_by_vm.
  assert (Hac : acc_at s4 counterF (Key requests) =
      Some (Counter_Sample (Counter_Sample (Counter_Sample
              (NewCounter "requests" []) 1 1) 1 1) 1 1)) by (vm_compute; reflexivity).
  assert (Hag : acc_at s4 gaugeF (Key cpu) =
      Some (Gauge_Sample (NewGauge "cpu" []) 0.5 1)) by (vm_compute; reflexivity).
  clearbody s4. subst os.
  exists s4, (wm (self s4)), (flushed e s4), 0%nat, 1%nat.
  split; [done|]. split; [done|]. split; [done|]. split; [apply Flush_eq|].
  split; [etrans; [apply (mapping_flushed_old e s4 KCounter Hwf)|exact Hmc]|].
  split; [etrans; [apply (acc_of_flushed e s4 KCounter _ Hwf)|exact Hac]|].
  split; [etrans; [apply (mapping_flushed_old e s4 KGauge Hwf)|exact Hmg]|].
  split; [etrans; [apply (acc_of_flushed e s4 KGauge _ Hwf)|exact Hag]|].
  split; [etrans; [apply (mapping_flushed_old e s4 KHistogram Hwf)|exact Hmh]|].
  split; [etrans; [apply (mapping_flushed_old e s4 KSet Hwf)|exact Hms]|].
  split; [etrans; [apply (mapping_flushed_old e s4 KTimer Hwf)|exact Hmt]|].
  unfold flushed. cbn [reported]. rewrite Hrep, Hp, Hi, Hid.
  pose proof (map_len_mapping _ _ counterF _ Hmc) as Hlc.
  pose proof (map_len_mapping _ _ gaugeF _ Hmg) as Hlg.
  rewrite map_size_singleton in Hlc, Hlg. cbn [fam_map counterF gaugeF] in Hlc, Hlg.
  rewrite Hlc, Hlg. cbn [app Z.of_nat Pos.of_succ_nat].
  repeat split; repeat constructor.
Qed.

End Boundaries.

(** * Further properties of the methods *)

Section Creation.
Context `{Samplers}.

Lemma map_len_flushed e s K :
  map_len (heap (flushed e s)) (fam_map (familyOf K) (wm (self (flushed e s)))) = 0.
Proof. by rewrite (map_len_mapping _ _ _ _ (mapping_flushed e s K)). Qed.

(** X1: a worker made by [NewWorker] is well formed, has both counters at
    zero and five distinct, allocated, empty mappings, and has logged and
    reported nothing; flushing it at once returns five empty mappings and
    reports zero for every count. *)
Theorem NewWorker_fresh (i : Z) (e : float64) :
  let s := NewWorker i in
  wf s /\
  id (self s) = i /\ processed (self s) = 0 /\ imported (self s) = 0 /\
  (forall K, mapping (heap s) (wm (self s)) (familyOf K) = Some ∅) /\
  NoDup ((fun K => fam_map (familyOf K) (wm (self s)))
           <$> [KCounter; KGauge; KHistogram; KSet; KTimer]) /\
  objH (heap s) = [] /\ logged s = [] /\ reported s = [] /\
  exists s',
    Flush e s = Done (wm (self s)) s' /\
    (forall K, mapping (heap s') (wm (self s)) (familyOf K) = Some ∅) /\
    reported s' = empty_report e i.
Proof.
  cbv zeta. split; [apply wf_NewWorker|].
  split; [done|]. split; [done|]. split; [done|].
  split; [by intros []|].
  split; [apply (bool_decide_unpack _); vm_compute; exact I|].
  split; [done|]. split; [done|]. split; [done|].
  exists (flushed e (NewWorker i)). split; [apply Flush_eq|].
  split; [by intros []|done].
Qed.

(** X2: a flush right after a flush (an empty window) returns five empty
    mappings, reports zero for both counters and for the five sizes, and
    logs nothing; this holds whatever the state before the first flush. *)
Theorem Flush_empty_window (e1 e2 : float64) (s : State) :
  let s1 := flushed e1 s in
  exists r s2,
    Flush e1 s = Done (wm (self s)) s1 /\
    Flush e2 s1 = Done r s2 /\
    (forall K, mapping (heap s2) r (familyOf K) = Some ∅) /\
    (forall K k, acc_of (heap s2) r (familyOf K) k = None) /\
    reported s2 = reported s1 ++ empty_report e2 (id (self s)) /\
    logged s2 = logged s /\
    processed (self s2) = 0 /\ imported (self s2) = 0.
Proof.
  cbv zeta. exists (wm (self (flushed e1 s))), (flushed e2 (flushed e1 s)).
  split; [apply Flush_eq|]. split; [apply Flush_eq|].
  assert (Hm : forall K, mapping (heap (flushed e2 (flushed e1 s)))
                 (wm (self (flushed e1 s))) (familyOf K) = Some ∅).
  { intros K. rewrite mapping_flushed_old by apply wf_flushed. apply mapping_flushed. }
  split; [done|]. split.
  { intros K k. rewrite acc_of_flushed by apply wf_flushed.
    apply acc_at_None, owner_flushed. }
  split; [|done].
  unfold flushed at 1. cbn [reported]. f_equal. unfold empty_report.
  pose proof (map_len_flushed e1 s KCounter) as Hc.
  pose proof (map_len_flushed e1 s KGauge) as Hg.
  pose proof (map_len_flushed e1 s KHistogram) as Hh.
  pose proof (map_len_flushed e1 s KSet) as Hs.
  pose proof (map_len_flushed e1 s KTimer) as Ht.
  cbn [familyOf fam_map counterF gaugeF histogramF setF timerF] in Hc, Hg, Hh, Hs, Ht.
  by rewrite Hc, Hg, Hh, Hs, Ht.
Qed.

End Creation.

Section Sampling.
Context `{Samplers}.

(** X3: a sample of a known type on a key that has an entry changes one
    thing besides [processed]: the accumulator behind the entry, which is
    sampled in place.  Nothing is allocated, logged or reported and the
    maps are untouched. *)
Theorem ProcessMetric_seen (m : UDPMetric) (s : State) (K : kind) (v : fam_V (familyOf K))
    (l : loc) :
  wf s ->
  kind_of (Type' (Key m)) = Some K ->
  fam_assert (familyOf K) (Value m) = Some v ->
  owner s (familyOf K) (Key m) = Some l ->
  exists a,
    objH (heap s) !! l = Some (fam_in (familyOf K) a) /\
    ProcessMetric m s =
      Done tt (store l (fam_in (familyOf K) (fam_sample (familyOf K) a v (SampleRate m)))
                 (set_self incr_processed s)).
Proof.
  intros Hwf HK Hv Ho.
  destruct (wf_acc_at s K (Key m) l Hwf Ho) as (a & Ha & Hacc).
  exists a. split; [done|].
  rewrite (ProcessMetric_kind m s K HK).
  set (s0 := set_self incr_processed s).
  unfold sample_case, mbind, M_bind, bind, get.
  rewrite ensure_eq. cbv zeta.
  change (owner s0 (familyOf K) (Key m)) with (owner s (familyOf K) (Key m)).
  rewrite Ho, Hv.
  by rewrite (call_owned (familyOf K) (Key m) l a _ s0 Ho Hacc).
Qed.

(** X4: a sample of a known type on a key that has no entry yet logs
    "New ..." at debug level, allocates the accumulator at the end of the
    heap, enters it in the mapping of its type and samples it once. *)
Theorem ProcessMetric_first (m : UDPMetric) (s : State) (K : kind) (v : fam_V (familyOf K)) :
  let F := familyOf K in
  wf s ->
  kind_of (Type' (Key m)) = Some K ->
  fam_assert F (Value m) = Some v ->
  owner s F (Key m) = None ->
  exists mp,
    mapping (heap s) (wm (self s)) F = Some mp /\
    ProcessMetric m s =
      Done tt
        (store (length (objH (heap s)))
           (fam_in F (fam_sample F (fam_new F (Name (Key m)) (Tags m)) v (SampleRate m)))
           (adopt F (Key m) (fam_new F (Name (Key m)) (Tags m)) mp
              (add_entry (mkEntry DebugLevel (FString "name" (Name (Key m))) (fam_new_msg F))
                 (set_self incr_processed s)))).
Proof.
  intros F Hwf HK Hv Ho. subst F.
  destruct (wf_maps s Hwf K) as [mp Hm]. exists mp. split; [done|].
  rewrite (ProcessMetric_kind m s K HK).
  set (s0 := set_self incr_processed s).
  assert (Hwf0 : wf s0) by (by apply (wf_same s)).
  unfold sample_case, mbind, M_bind, bind, get.
  rewrite ensure_eq. cbv zeta.
  change (owner s0 (familyOf K) (Key m)) with (owner s (familyOf K) (Key m)).
  change (mapping (heap s0) (wm (self s0)) (familyOf K))
    with (mapping (heap s) (wm (self s)) (familyOf K)).
  rewrite Ho, Hm, Hv.
  set (s1 := add_entry _ s0).
  assert (Hwf1 : wf s1) by (by apply (wf_same s0)).
  rewrite (call_owned (familyOf K) (Key m) (length (objH (heap s)))
             (fam_new (familyOf K) (Name (Key m)) (Tags m)) _ _
             (owner_adopt_eq s1 K (Key m) _ mp Hwf1 Hm)
             (acc_at_adopt_eq s1 K (Key m) _ mp Hwf1 Hm)).
  done.
Qed.

(** X5: a sample whose value has the wrong representation for its type
    makes [ProcessMetric] panic at the type assertion.  By then the sample
    has been counted and, for a key without an entry, a new accumulator has
    been entered in the mapping; nothing has been sampled. *)
Theorem ProcessMetric_wrong_value (m : UDPMetric) (s : State) (K : kind) :
  let F := familyOf K in
  wf s ->
  kind_of (Type' (Key m)) = Some K ->
  fam_assert F (Value m) = None ->
  exists s',
    ProcessMetric m s = Panic s' /\
    processed (self s') = wrap64 (processed (self s) + 1) /\
    acc_at s' F (Key m) =
      Some (default (fam_new F (Name (Key m)) (Tags m)) (acc_at s F (Key m))) /\
    (forall K' k', K' <> K \/ k' <> Key m ->
       acc_at s' (familyOf K') k' = acc_at s (familyOf K') k').
Proof.
  intros F Hwf HK Hv. subst F.
  rewrite (ProcessMetric_kind m s K HK).
  set (s0 := set_self incr_processed s).
  assert (Hwf0 : wf s0) by (by apply (wf_same s)).
  destruct (ensure_spec K (Key m) (Name (Key m)) (Tags m) s0 Hwf0)
    as (s1 & l & He & _ & _ & Hself & _ & _ & _ & Hacc & Hfr).
  exists s1. split.
  { unfold sample_case, mbind, M_bind, bind, get. by rewrite He, Hv. }
  split; [by rewrite Hself|]. split; [done|done].
Qed.

End Sampling.

Section Entries.
Context `{Samplers}.

Lemma ensure_owner_stable K k n t s s1 K' k' l :
  wf s -> ensure (familyOf K) k n t s = Done tt s1 ->
  owner s (familyOf K') k' = Some l -> owner s1 (familyOf K') k' = Some l.
Proof.
  intros Hwf. rewrite ensure_eq. cbv zeta.
  destruct (owner s (familyOf K) k) as [l0|] eqn:Ho; [by intros [= <-]|].
  destruct (wf_maps s Hwf K) as [mp Hm]. rewrite Hm. intros [= <-] Ho'.
  set (s0 := add_entry _ s).
  assert (Hwf0 : wf s0) by (by apply (wf_same s)).
  rewrite (owner_adopt_ne s0 K k _ mp K' k' Hwf0 Hm); [done|].
  destruct (decide (K' = K)) as [->|]; [|by left].
  right. intros ->. congruence.
Qed.

Lemma sample_case_owner_stable K m s K' k' l :
  wf s -> owner s (familyOf K') k' = Some l ->
  owner (final (sample_case (familyOf K) m s)) (familyOf K') k' = Some l.
Proof.
  intros Hwf Ho.
  destruct (ensure_spec K (Key m) (Name (Key m)) (Tags m) s Hwf)
    as (s1 & l1 & He & _ & _ & _ & _ & Ho1 & _ & Hacc & _).
  pose proof (ensure_owner_stable _ _ _ _ _ _ _ _ _ Hwf He Ho) as Ho'.
  unfold sample_case, mbind, M_bind, bind, get. rewrite He.
  destruct (fam_assert (familyOf K) (Value m)) as [v|]; [|done].
  by rewrite (call_owned (familyOf K) (Key m) l1 _ _ s1 Ho1 Hacc).
Qed.

Lemma ProcessMetric_owner_stable m s K' k' l :
  wf s -> owner s (familyOf K') k' = Some l ->
  owner (final (ProcessMetric m s)) (familyOf K') k' = Some l.
Proof.
  intros Hwf Ho. destruct (kind_of (Type' (Key m))) as [K|] eqn:HK.
  - rewrite (ProcessMetric_kind m s K HK).
    apply sample_case_owner_stable; [by apply (wf_same s)|done].
  - by rewrite (ProcessMetric_unknown m s HK).
Qed.

Lemma ImportMetric_owner_stable j s K' k' l :
  wf s -> owner s (familyOf K') k' = Some l ->
  owner (final (ImportMetric j s)) (familyOf K') k' = Some l.
Proof.
  intros Hwf Ho. destruct (decide (Type' (JKey j) = "set")) as [Ht|Ht].
  - set (s0 := set_self incr_imported s).
    assert (Hwf0 : wf s0) by (by apply (wf_same s)).
    destruct (ensure_spec KSet (JKey j) (Name (JKey j)) (JTags j) s0 Hwf0)
      as (s1 & l1 & He & _ & _ & _ & _ & Ho1 & _ & Hacc & _).
    pose proof (ensure_owner_stable _ _ _ _ _ _ K' k' l Hwf0 He Ho) as Ho'.
    unfold ImportMetric, mbind, M_bind, bind, modify, get. rewrite Ht. simpl.
    fold s0. change setF with (familyOf KSet). rewrite He.
    change (sets (wm (self s1))) with (fam_map (familyOf KSet) (wm (self s1))).
    rewrite (call_owned (familyOf KSet) (JKey j) l1 _ _ s1 Ho1 Hacc).
    match goal with
    | |- context [match ?x with Some _ => _ | None => _ end] => by destruct x
    end.
  - by rewrite (ImportMetric_unsupported j s Ht).
Qed.

(** X6: within a window an entry is never removed and never moved: once a
    key of a mapping points to an accumulator, it points to the same
    accumulator after any sequence of [ProcessMetric] and [ImportMetric]
    calls (up to its end or its first panic). *)
Theorem entries_stable (os : list op) (s : State) (K : kind) (k : MetricKey) (l : loc) :
  wf s -> Forall no_flush os ->
  owner s (familyOf K) k = Some l ->
  owner (final (run os s)) (familyOf K) k = Some l.
Proof.
  intros Hwf Hos. revert s Hwf. induction Hos as [|o os Ho Hos IH]; intros s Hwf Hown.
  - done.
  - cbn [run]. rewrite final_bind.
    destruct (step_sound o s Hwf) as [Hwf' _].
    assert (Hown' : owner (final (step o s)) (familyOf K) k = Some l).
    { destruct o as [m|j|e]; [|..|done]; unfold step.
      - by apply ProcessMetric_owner_stable.
      - by apply ImportMetric_owner_stable. }
    destruct (step o s) as [[] s'|s']; simpl in *; [by apply IH|done].
Qed.

(** X7: sampling and importing share the set of a key: a "set" sample
    followed by an import for the same key leaves the key's set as
    [Combine] left the sampled set, whether or not [Combine] reports an
    error. *)
Theorem sample_then_import (m : UDPMetric) (j : JSONMetric) (s : State) (v : string) :
  let k := Key m in
  let a0 := default (NewSet (Name k) (Tags m)) (acc_at s setF k) in
  wf s -> Type' k = "set" -> Value m = VString v -> JKey j = k ->
  exists s',
    run [OpProcess m; OpImport j] s = Done tt s' /\
    acc_at s' setF k =
      Some (Set_Combine (Set_Sample a0 v (SampleRate m)) (JValue j)).1 /\
    (forall K' k', K' <> KSet \/ k' <> k ->
       acc_at s' (familyOf K') k' = acc_at s (familyOf K') k') /\
    processed (self s') = wrap64 (processed (self s) + 1) /\
    imported (self s') = wrap64 (imported (self s) + 1).
Proof.
  intros k a0 Hwf Ht Hv Hj.
  assert (HK : kind_of (Type' (Key m)) = Some KSet) by (fold k; by rewrite Ht).
  set (s0 := set_self incr_processed s).
  assert (Hwf0 : wf s0) by (by apply (wf_same s)).
  assert (Hv' : fam_assert (familyOf KSet) (Value m) = Some v) by (by rewrite Hv).
  pose proof (sample_case_spec KSet m s0 v Hwf0 Hv') as Hs. cbv zeta in Hs.
  destruct Hs as (s1 & l & Hrun1 & Hwf1 & _ & Hself1 & _ & _ & _ & Hacc1 & Hfr1).
  assert (Htj : Type' (JKey j) = "set") by (by rewrite Hj).
  pose proof (ImportMetric_set j s1 Hwf1 Htj) as Hi. cbv zeta in Hi.
  destruct Hi as (s2 & l2 & Hrun2 & _ & _ & Hself2 & _ & _ & _ & Hacc2 & Hfr2 & _).
  rewrite Hj in Hacc2, Hfr2. fold k in Hacc1, Hfr1, Hacc2, Hfr2.
  change (familyOf KSet) with setF in Hacc1. rewrite Hacc1 in Hacc2. simpl in Hacc2.
  exists s2. split.
  { cbn [run]. unfold mbind, M_bind, bind, step.
    rewrite (ProcessMetric_kind m s KSet HK). fold s0. rewrite Hrun1, Hrun2. done. }
  split; [exact Hacc2|].
  split; [intros K' k' Hne; by rewrite Hfr2, Hfr1|].
  rewrite Hself2, Hself1. by split.
Qed.

End Entries.

Section Loop.
Context `{Samplers}.

Lemma run_process_cons m ms s s' :
  run (OpProcess <$> m :: ms) s = Done tt s' ->
  exists s1, ProcessMetric m s = Done tt s1 /\ run (OpProcess <$> ms) s1 = Done tt s'.
Proof.
  rewrite fmap_cons. cbn [run]. unfold mbind, M_bind, bind, step.
  destruct (ProcessMetric m s) as [[] s1|s1]; [|done]. intros Hr. by exists s1.
Qed.

(** X8: while [QuitChan] is open the loop receives the offered samples in
    the order they are offered, processes each one before it receives the
    next, and blocks when none is left; the runtime's draws play no part.
    The state it blocks in is the state that the same [ProcessMetric]
    calls, made one after the other, leave. *)
Theorem Work_drains_in_order (ms : list UDPMetric) (coins : list bool) (s s' : State) :
  run (OpProcess <$> ms) s = Done tt s' ->
  (length ms < length coins)%nat ->
  Work coins (mkChans ms false) s = (Blocked, mkChans [] false, s').
Proof.
  revert coins s. induction ms as [|m ms IH]; intros [|coin coins] s Hrun Hlen;
    simpl in Hlen; try lia.
  - by injection Hrun as ->.
  - destruct (run_process_cons m ms s s' Hrun) as (s1 & H1 & Hrest).
    cbn [Work select WorkChan QuitChan]. rewrite H1. apply IH; [done|lia].
Qed.

(** X9: a sample on which [ProcessMetric] panics takes the loop down with
    it: the samples offered before it have been processed, the samples
    offered after it are never received. *)
Theorem Work_crashes (ms1 ms2 : list UDPMetric) (m : UDPMetric) (coins : list bool)
    (s s1 s2 : State) :
  run (OpProcess <$> ms1) s = Done tt s1 ->
  ProcessMetric m s1 = Panic s2 ->
  (length ms1 < length coins)%nat ->
  Work coins (mkChans (ms1 ++ m :: ms2) false) s = (Crashed, mkChans ms2 false, s2).
Proof.
  revert coins s. induction ms1 as [|m1 ms1 IH]; intros [|coin coins] s Hrun Hp Hlen;
    simpl in Hlen; try lia.
  - injection Hrun as ->. cbn [app Work select WorkChan QuitChan]. by rewrite Hp.
  - destruct (run_process_cons m1 ms1 s s1 Hrun) as (s0 & H1 & Hrest).
    cbn [app Work select WorkChan QuitChan]. rewrite H1. apply IH; [done|done|lia].
Qed.

Lemma id_ProcessMetric m s s' : ProcessMetric m s = Done tt s' -> id (self s') = id (self s).
Proof. intros Hr. pose proof (self_ProcessMetric m s) as Hs. rewrite Hr in Hs. simpl in Hs. by rewrite Hs. Qed.

(** How the loop can end. *)
Lemma Work_halt coins c s :
  let '(h, c', s') := Work coins c s in
  QuitChan c' = QuitChan c /\
  (h = Returned ->
     QuitChan c = true /\
     last (logged s') = Some (mkEntry ErrorLevel (FInt "worker" (id (self s))) "Stopping")) /\
  (h = Blocked -> QuitChan c = false /\ WorkChan c' = []).
Proof.
  revert c s. induction coins as [|coin coins IH]; intros [ms q] s.
  - simpl. by repeat split.
  - cbn [Work]. unfold select. cbn [WorkChan QuitChan].
    assert (Hstep : forall q',
      let '(h, c', s') :=
        match ProcessMetric (default requests (head ms)) s with
        | Done _ s1 => Work coins (mkChans (tail ms) q') s1
        | Panic s1 => (Crashed, mkChans (tail ms) q', s1)
        end in
      QuitChan c' = q' /\
      (h = Returned ->
         q' = true /\
         last (logged s') = Some (mkEntry ErrorLevel (FInt "worker" (id (self s))) "Stopping")) /\
      (h = Blocked -> q' = false /\ WorkChan c' = [])).
    { intros q'. destruct (ProcessMetric _ s) as [[] s1|s1] eqn:Hp; [|by repeat split].
      specialize (IH (mkChans (tail ms) q') s1).
      destruct (Work coins _ s1) as [[h c'] s']. cbn [QuitChan] in IH.
      by rewrite (id_ProcessMetric _ _ _ Hp) in IH. }
    destruct ms as [|m ms], q; [| |destruct coin|].
    + split; [done|]. split; [|done]. intros _. split; [done|].
      simpl. apply last_snoc.
    + by repeat split.
    + apply (Hstep true).
    + split; [done|]. split; [|done]. intros _. split; [done|].
      simpl. apply last_snoc.
    + apply (Hstep false).
Qed.

(** X10: the loop returns only when [QuitChan] has been closed, and the
    last thing it does is log "Stopping" with the worker's id; it blocks
    only while [QuitChan] is open and nothing is offered.  [Stop] closes
    the channel once: after it the loop can no longer block, and a second
    [Stop] panics. *)
Theorem Work_returns_after_Stop (coins : list bool) (c : Chans) (s : State) :
  ((Work coins c s).1.1 = Returned ->
     QuitChan c = true /\
     last (logged (Work coins c s).2) =
       Some (mkEntry ErrorLevel (FInt "worker" (id (self s))) "Stopping")) /\
  ((Work coins c s).1.1 = Blocked ->
     QuitChan c = false /\ WorkChan (Work coins c s).1.2 = []) /\
  (forall c', Stop c = Some c' ->
     QuitChan c = false /\ WorkChan c' = WorkChan c /\
     Stop c' = None /\ (Work coins c' s).1.1 <> Blocked).
Proof.
  pose proof (Work_halt coins c s) as Hh.
  destruct (Work coins c s) as [[h c1] s1]. destruct Hh as (_ & Hret & Hblk).
  split; [done|]. split; [done|].
  intros c' Hstop. unfold Stop in Hstop.
  destruct (QuitChan c) eqn:Hq; [done|]. injection Hstop as <-.
  split; [done|]. split; [done|]. split; [done|].
  pose proof (Work_halt coins (mkChans (WorkChan c) true) s) as Hh'.
  destruct (Work coins (mkChans (WorkChan c) true) s) as [[h' c2] s2].
  destruct Hh' as (_ & _ & Hblk'). simpl. intros ->. by destruct Hblk'.
Qed.

End Loop.

Section Window.
Context `{Samplers}.

Lemma ProcessMetric_step m s :
  wf s -> well_typed m ->
  exists s',
    ProcessMetric m s = Done tt s' /\ wf s' /\
    self s' = incr_processed (self s) /\ reported s' = reported s /\
    (forall K k, kind_of (Type' k) = Some K ->
       acc_at s' (familyOf K) k =
       if decide (Key m = k)
       then sample_with (familyOf K)
              (default (fam_new (familyOf K) (Name (Key m)) (Tags m))
                 (acc_at s (familyOf K) k)) m
       else acc_at s (familyOf K) k) /\
    (forall K k, kind_of (Type' k) <> Some K ->
       acc_at s' (familyOf K) k = acc_at s (familyOf K) k).
Proof.
  intros Hwf Ht. unfold well_typed in Ht.
  destruct (kind_of (Type' (Key m))) as [Km|] eqn:HK.
  - destruct Ht as [v Hv]. rewrite (ProcessMetric_kind m s Km HK).
    set (s0 := set_self incr_processed s).
    assert (Hwf0 : wf s0) by (by apply (wf_same s)).
    pose proof (sample_case_spec Km m s0 v Hwf0 Hv) as Hs. cbv zeta in Hs.
    destruct Hs as (s' & l & Hrun & Hwf' & _ & Hself & Hrep & _ & _ & Hacc & Hfr).
    exists s'. split; [done|]. split; [done|]. split; [done|]. split; [done|]. split.
    + intros K k Hk. destruct (decide (Key m = k)) as [E|E].
      * assert (Km = K) as -> by (by apply (kind_of_key_eq m k)). subst k.
        rewrite Hacc. unfold sample_with. by rewrite Hv.
      * rewrite Hfr; [done|]. right. congruence.
    + intros K k Hk. rewrite Hfr; [done|].
      destruct (decide (k = Key m)) as [->|]; [|by right].
      left. congruence.
  - rewrite (ProcessMetric_unknown m s HK). eexists. split; [done|].
    split; [by apply (wf_same s)|]. split; [done|]. split; [done|]. split.
    + intros K k Hk. destruct (decide (Key m = k)) as [E|E]; [|done].
      subst k. congruence.
    + done.
Qed.

Lemma run_process_spec ms s :
  wf s -> Forall well_typed ms ->
  exists s',
    run (OpProcess <$> ms) s = Done tt s' /\ wf s' /\
    self s' = Nat.iter (length ms) incr_processed (self s) /\
    reported s' = reported s /\
    (forall K k, kind_of (Type' k) = Some K ->
       acc_at s' (familyOf K) k =
       fold_samples (familyOf K) (acc_at s (familyOf K) k)
         (filter (fun m => Key m = k) ms)) /\
    (forall K k, kind_of (Type' k) <> Some K ->
       acc_at s' (familyOf K) k = acc_at s (familyOf K) k).
Proof.
  intros Hwf Hms. revert s Hwf.
  induction Hms as [|m ms Hm Hms IH]; intros s Hwf.
  - exists s. split; [done|]. split; [done|]. by repeat split.
  - destruct (ProcessMetric_step m s Hwf Hm) as (s1 & Hrun & Hwf1 & Hself & Hrep & Hacc & Hoth).
    destruct (IH s1 Hwf1) as (s' & Hrun' & Hwf' & Hself' & Hrep' & Hacc' & Hoth').
    exists s'. split.
    { rewrite fmap_cons. cbn [run]. unfold mbind, M_bind, bind, step.
      rewrite Hrun. exact Hrun'. }
    split; [done|]. split.
    { rewrite Hself', Hself. cbn [length]. by rewrite Nat.iter_succ_r. }
    split; [by rewrite Hrep'|]. split.
    + intros K k Hk. rewrite (Hacc' K k Hk), (Hacc K k Hk).
      rewrite filter_cons. by destruct (decide (Key m = k)).
    + intros K k Hk. by rewrite (Hoth' K k Hk), (Hoth K k Hk).
Qed.

Lemma iter_incr_processed n w :
  - 2 ^ 63 <= processed w -> processed w + Z.of_nat n <= MaxInt64 ->
  Nat.iter n incr_processed w =
  mkWorker (id w) (processed w + Z.of_nat n) (imported w) (wm w).
Proof.
  intros Hlo. induction n as [|n IH]; intros Hhi.
  - simpl. rewrite Z.add_0_r. by destruct w.
  - rewrite Nat.iter_succ, IH by lia. unfold incr_processed. simpl.
    rewrite wrap64_succ by (unfold MaxInt64 in *; lia). f_equal. lia.
Qed.

Lemma fold_samples_Some F ms a :
  Forall (fun m => is_Some (fam_assert F (Value m))) ms ->
  is_Some (fold_samples F (Some a) ms).
Proof.
  intros Hms. revert a. induction Hms as [|m ms [v Hv] Hms IH]; intros a.
  - by eexists.
  - unfold fold_samples. simpl. unfold sample_with at 2. rewrite Hv. simpl. apply IH.
Qed.

Lemma fold_samples_is_Some F ms :
  Forall (fun m => is_Some (fam_assert F (Value m))) ms ->
  is_Some (fold_samples F None ms) <-> ms <> [].
Proof.
  intros Hms. destruct Hms as [|m ms [v Hv] Hms].
  - split; [by intros [? [=]]|done].
  - split; [done|]. intros _.
    unfold fold_samples. simpl. unfold sample_with at 2. rewrite Hv. simpl.
    by apply fold_samples_Some.
Qed.

(** X11: a window is what lies between two flushes.  After a flush, a
    sequence of well-typed samples is processed without a panic, and the
    next flush returns a snapshot that holds, for every key, the fold of
    [Sample] over this window's samples of that key, starting from a new
    accumulator, and nothing for a key no sample carried; [processed] counts
    the window's samples and [imported] is zero. *)
Theorem window_snapshot (s : State) (e0 e : float64) (ms : list UDPMetric) :
  Forall well_typed ms ->
  Z.of_nat (length ms) <= MaxInt64 ->
  exists s2 r s3,
    run (OpProcess <$> ms) (flushed e0 s) = Done tt s2 /\
    Flush e s2 = Done r s3 /\
    processed (self s2) = Z.of_nat (length ms) /\ imported (self s2) = 0 /\
    (forall K k, kind_of (Type' k) = Some K ->
       acc_of (heap s3) r (familyOf K) k =
       fold_samples (familyOf K) None (filter (fun m => Key m = k) ms)) /\
    (forall K k, kind_of (Type' k) <> Some K ->
       acc_of (heap s3) r (familyOf K) k = None).
Proof.
  intros Hms Hlen.
  destruct (run_process_spec ms (flushed e0 s) (wf_flushed e0 s) Hms)
    as (s2 & Hrun & Hwf2 & Hself & _ & Hacc & Hoth).
  rewrite iter_incr_processed in Hself by (simpl; unfold MaxInt64 in *; lia).
  exists s2, (wm (self s2)), (flushed e s2).
  split; [done|]. split; [apply Flush_eq|].
  split; [by rewrite Hself|]. split; [by rewrite Hself|]. split.
  - intros K k Hk. rewrite (acc_of_flushed e s2 K k Hwf2), (Hacc K k Hk).
    by rewrite (acc_at_None _ _ _ (owner_flushed e0 s K k)).
  - intros K k Hk. rewrite (acc_of_flushed e s2 K k Hwf2), (Hoth K k Hk).
    apply acc_at_None, owner_flushed.
Qed.

Lemma well_typed_kind K m :
  well_typed m -> kind_of (Type' (Key m)) = Some K ->
  is_Some (fam_assert (familyOf K) (Value m)).
Proof. unfold well_typed. intros Ht HK. by rewrite HK in Ht. Qed.

(** The keys that have an entry in a mapping, after a window of samples. *)
Lemma window_dom s e0 ms s2 K mp :
  Forall well_typed ms ->
  run (OpProcess <$> ms) (flushed e0 s) = Done tt s2 ->
  mapping (heap s2) (wm (self s2)) (familyOf K) = Some mp ->
  dom mp = keys_of K ms.
Proof.
  intros Hms Hrun Hmp.
  destruct (run_process_spec ms (flushed e0 s) (wf_flushed e0 s) Hms)
    as (s2' & Hrun' & Hwf2 & _ & _ & Hacc & Hoth).
  rewrite Hrun in Hrun'. injection Hrun' as <-.
  assert (Hin : forall k, is_Some (mp !! k) <-> is_Some (acc_at s2 (familyOf K) k)).
  { intros k. rewrite <- (mapping_owner s2 _ k mp Hmp). split.
    - intros [l Hl]. destruct (wf_acc_at s2 K k l Hwf2 Hl) as (a & _ & Ha). by eexists.
    - intros [a Ha]. destruct (owner s2 (familyOf K) k) eqn:Ho; [by eexists|].
      by rewrite (acc_at_None _ _ _ Ho) in Ha. }
  apply set_eq. intros k. rewrite elem_of_dom, Hin. unfold keys_of.
  rewrite elem_of_list_to_set, list_elem_of_fmap.
  destruct (decide (kind_of (Type' k) = Some K)) as [Hk|Hk].
  - rewrite (Hacc K k Hk), (acc_at_None _ _ _ (owner_flushed e0 s K k)).
    rewrite fold_samples_is_Some.
    + split.
      * intros Hne. destruct (filter (λ m, Key m = k) ms) as [|m sub] eqn:Hf; [done|].
        assert (Hm : m ∈ filter (λ m, Key m = k) ms) by (rewrite Hf; left).
        apply list_elem_of_filter in Hm as [Hkm Hm]. exists m. split; [done|].
        apply list_elem_of_filter. split; [by rewrite Hkm|done].
      * intros (m & -> & Hm). apply list_elem_of_filter in Hm as [_ Hm].
        intros Hf. assert (Hm' : m ∈ filter (λ m0, Key m0 = Key m) ms)
          by (by apply list_elem_of_filter).
        rewrite Hf in Hm'. by apply not_elem_of_nil in Hm'.
    + apply Forall_forall. intros m Hm. apply list_elem_of_filter in Hm as [Hkm Hm].
      apply well_typed_kind; [|by rewrite Hkm].
      by apply (proj1 (Forall_forall _ _) Hms).
  - rewrite (Hoth K k Hk), (acc_at_None _ _ _ (owner_flushed e0 s K k)). split.
    + by intros [? [=]].
    + intros (m & -> & Hm). apply list_elem_of_filter in Hm as [Hkm _]. done.
Qed.

(** X12: what a flush reports for a window of well-typed samples: the
    number of samples as [worker.metrics_processed_total], zero imports,
    and for each of the five types the number of distinct keys among the
    window's samples of that type as [worker.metrics_flushed_total]. *)
Theorem window_report (s : State) (e0 e : float64) (ms : list UDPMetric) :
  Forall well_typed ms ->
  Z.of_nat (length ms) <= MaxInt64 ->
  exists s2 r s3,
    run (OpProcess <$> ms) (flushed e0 s) = Done tt s2 /\
    Flush e s2 = Done r s3 /\
    reported s3 = reported (flushed e0 s) ++
      [TimeInMilliseconds "flush.worker_duration_ns" e [] 1;
       Count "worker.metrics_processed_total" (Z.of_nat (length ms))
         [worker_tag (id (self s))] 1;
       Count "worker.metrics_imported_total" 0 [worker_tag (id (self s))] 1;
       Count "worker.metrics_flushed_total"
         (Z.of_nat (size (keys_of KCounter ms))) ["metric_type:counter"] 1;
       Count "worker.metrics_flushed_total"
         (Z.of_nat (size (keys_of KGauge ms))) ["metric_type:gauge"] 1;
       Count "worker.metrics_flushed_total"
         (Z.of_nat (size (keys_of KHistogram ms))) ["metric_type:histogram"] 1;
       Count "worker.metrics_flushed_total"
         (Z.of_nat (size (keys_of KSet ms))) ["metric_type:set"] 1;
       Count "worker.metrics_flushed_total"
         (Z.of_nat (size (keys_of KTimer ms))) ["metric_type:timer"] 1].
Proof.
  intros Hms Hlen.
  destruct (run_process_spec ms (flushed e0 s) (wf_flushed e0 s) Hms)
    as (s2 & Hrun & Hwf2 & Hself & Hrep & _ & _).
  rewrite iter_incr_processed in Hself by (simpl; unfold MaxInt64 in *; lia).
  assert (Hlen' : forall K,
    map_len (heap s2) (fam_map (familyOf K) (wm (self s2))) = Z.of_nat (size (keys_of K ms))).
  { intros K. destruct (wf_maps s2 Hwf2 K) as [mp Hmp].
    rewrite (map_len_mapping _ _ _ _ Hmp).
    by rewrite <- (window_dom s e0 ms s2 K mp Hms Hrun Hmp), size_dom. }
  exists s2, (wm (self s2)), (flushed e s2).
  split; [done|]. split; [apply Flush_eq|].
  unfold flushed at 1. cbn [reported]. rewrite Hrep. f_equal.
  pose proof (Hlen' KCounter) as Hc. pose proof (Hlen' KGauge) as Hg.
  pose proof (Hlen' KHistogram) as Hh. pose proof (Hlen' KSet) as Hs.
  pose proof (Hlen' KTimer) as Ht.
  cbn [familyOf fam_map counterF gaugeF histogramF setF timerF] in Hc, Hg, Hh, Hs, Ht.
  rewrite Hc, Hg, Hh, Hs, Ht, Hself. simpl. by rewrite Z.add_0_l.
Qed.

(** X13: whatever calls a worker has received since [NewWorker], its state
    is well formed, so the only panic left is the type assertion:
    [ImportMetric] and [Flush] always return, and [ProcessMetric] returns
    on every sample whose value has the representation its type asserts. *)
Theorem worker_never_faults (i : Z) (os : list op) :
  let s := final (run os (NewWorker i)) in
  wf s /\
  (forall j, exists s', ImportMetric j s = Done tt s') /\
  (forall e, exists r s', Flush e s = Done r s') /\
  (forall m, well_typed m -> exists s', ProcessMetric m s = Done tt s').
Proof.
  intros s. assert (Hwf : wf s) by (apply run_sound, wf_NewWorker).
  split; [done|]. split; [|split].
  - intros j. destruct (decide (Type' (JKey j) = "set")) as [Ht|Ht].
    + pose proof (ImportMetric_set j s Hwf Ht) as Hs. cbv zeta in Hs.
      destruct Hs as (s' & l & Hrun & _). by exists s'.
    + rewrite (ImportMetric_unsupported j s Ht). by eexists.
  - intros e. rewrite Flush_eq. by eexists _, _.
  - intros m Hm. destruct (ProcessMetric_step m s Hwf Hm) as (s' & Hrun & _). by exists s'.
Qed.

End Window.

(** * The scenarios, run on the reference accumulators *)

Import Ref.

Lemma scenario_values :
  let s4 := final (run [OpProcess requests; OpProcess requests; OpProcess requests;
                        OpProcess cpu] (NewWorker 0)) in
  acc_at s4 counterF (Key requests) = Some (mkRCounter "requests" [] 3) /\
  acc_at s4 gaugeF (Key cpu) = Some (mkRGauge "cpu" [] 0.5).
Proof. split; vm_compute; reflexivity. Qed.

(** A "bogus" sample on a fresh worker. *)
Lemma unknown_type_dropped_bogus :
  ProcessMetric bogus (NewWorker 0) =
    Done tt (add_entry (mkEntry ErrorLevel (FString "type" "bogus")
                          "Unknown metric type for processing")
               (set_self incr_processed (NewWorker 0))) /\
  processed (incr_processed (self (NewWorker 0))) = 1.
Proof.
  destruct (unknown_type_dropped bogus (NewWorker 0))
    as (Hrun & Hp & _); try discriminate.
  split; [exact Hrun|exact Hp].
Defined.

(** Three "requests" with a "cpu" and a "bogus" in between. *)
Lemma routing_fold_interleaved :
  exists s',
    run (OpProcess <$> [requests; cpu; requests; bogus; requests]) (NewWorker 0)
      = Done tt s' /\
    acc_at s' counterF (Key requests) = Some (mkRCounter "requests" [] 3) /\
    acc_at s' gaugeF (Key cpu) = Some (mkRGauge "cpu" [] 0.5).
Proof.
  destruct (routing_fold (NewWorker 0) [requests; cpu; requests; bogus; requests])
    as (s' & Hrun & Hacc).
  - apply wf_NewWorker.
  - repeat constructor; unfold well_typed; simpl; by eexists.
  - exists s'. split; [exact Hrun|]. split.
    + etrans; [exact (Hacc KCounter (Key requests) eq_refl)|vm_compute; reflexivity].
    + etrans; [exact (Hacc KGauge (Key cpu) eq_refl)|vm_compute; reflexivity].
Defined.

(** A valid import of "users", then a corrupted one. *)
Lemma rejected_import_keeps_users :
  let s1 := final (ImportMetric users_valid (NewWorker 0)) in
  ImportMetric users_valid (NewWorker 0) = Done tt s1 /\
  imported (self s1) = 1 /\ processed (self s1) = 0 /\
  acc_at s1 setF users = Some (mkRSet "users" [] ["alice"; "bob"]) /\
  exists s2,
    ImportMetric users_corrupted s1 = Done tt s2 /\
    acc_at s2 setF users = Some (mkRSet "users" [] ["alice"; "bob"]) /\
    last (logged s2) =
      Some (mkEntry ErrorLevel (FError "malformed set state") "Could not merge sets").
Proof.
  intros s1.
  split; [vm_compute; reflexivity|]. split; [vm_compute; reflexivity|].
  split; [vm_compute; reflexivity|]. split; [vm_compute; reflexivity|].
  destruct (rejected_import_leaves_entry users_corrupted s1 "malformed set state")
    as (s2 & Hrun & Hacc & _ & _ & _ & Hlog & _).
  - apply ImportMetric_sound, wf_NewWorker.
  - reflexivity.
  - vm_compute; reflexivity.
  - exists s2. split; [exact Hrun|]. split; [|exact Hlog].
    etrans; [exact Hacc|vm_compute; reflexivity].
Defined.

(** The scenario's snapshot, flushed, then more traffic. *)
Lemma flushed_snapshot_isolated_scenario :
  let s := final (run [OpProcess requests; OpProcess requests; OpProcess requests;
                       OpProcess cpu] (NewWorker 0)) in
  let later := [OpProcess requests; OpImport users_valid; OpFlush 0;
                OpProcess cpu; OpProcess requests] in
  Flush 0 s = Done (wm (self s)) (flushed 0 s) /\
  acc_of (heap (final (run later (flushed 0 s)))) (wm (self s)) counterF (Key requests)
    = Some (mkRCounter "requests" [] 3).
Proof.
  intros s later.
  destruct (flushed_snapshot_isolated s 0 later) as (Hf & _ & _ & _ & _ & Hacc).
  - apply run_sound, wf_NewWorker.
  - split; [exact Hf|].
    etrans; [exact (Hacc KCounter (Key requests))|vm_compute; reflexivity].
Defined.

(** [Flush] on a fresh worker and on one that has dropped a "bogus" sample
    returns the same snapshot and leaves the same heap, though the counters
    of the two windows differ: the caller cannot read the counters off what
    [Flush] returns. *)
Lemma Flush_result_hides_counters :
  exists s r s1 s2,
    ProcessMetric bogus (NewWorker 0) = Done tt s /\
    Flush 0 (NewWorker 0) = Done r s1 /\
    Flush 0 s = Done r s2 /\
    heap s1 = heap s2 /\
    processed (self (NewWorker 0)) = 0 /\
    processed (self s) = 1.
Proof.
  exists (final (ProcessMetric bogus (NewWorker 0))), (wm (self (NewWorker 0))),
    (flushed 0 (NewWorker 0)), (flushed 0 (final (ProcessMetric bogus (NewWorker 0)))).
  repeat split; vm_compute; reflexivity.
Qed.

(** A corrupted import for a key the worker has not seen: [Combine]
    rejects it, and yet the next flush hands out an entry for the key and
    counts one flushed set. *)
Lemma rejected_import_shows_in_flush :
  exists s1 r s2,
    acc_at (NewWorker 0) setF users = None /\
    (Set_Combine (NewSet "users" []) (JValue users_corrupted)).2
      = Some "malformed set state" /\
    ImportMetric users_corrupted (NewWorker 0) = Done tt s1 /\
    Flush 0 s1 = Done r s2 /\
    acc_of (heap s2) r setF users = Some (mkRSet "users" [] []) /\
    last (reported s2) = Some (Count "worker.metrics_flushed_total" 0 ["metric_type:timer"] 1) /\
    reported s2 !! 6%nat = Some (Count "worker.metrics_flushed_total" 1 ["metric_type:set"] 1).
Proof.
  exists (final (ImportMetric users_corrupted (NewWorker 0))),
    (wm (self (final (ImportMetric users_corrupted (NewWorker 0))))),
    (flushed 0 (final (ImportMetric users_corrupted (NewWorker 0)))).
  repeat split; vm_compute; reflexivity.
Qed.

(** A sample is offered and [QuitChan] is closed; the runtime draws the
    shutdown case: the loop returns, nothing has been processed and the
    sample is still with its sender. *)
Lemma shutdown_can_leave_offered_sample :
  exists s',
    Work [false] (mkChans [requests] true) (NewWorker 0)
      = (Returned, mkChans [requests] true, s') /\
    processed (self s') = 0 /\
    acc_at s' counterF (Key requests) = None.
Proof.
  exists (add_entry (mkEntry ErrorLevel (FInt "worker" 0) "Stopping") (NewWorker 0)).
  repeat split; vm_compute; reflexivity.
Qed.

(** One "requests" sample has been processed; a second one arrives. *)
Lemma ProcessMetric_seen_requests :
  exists a : RCounter,
    objH (heap (final (ProcessMetric requests (NewWorker 0)))) !! 0%nat = Some (OCounter a) /\
    ProcessMetric requests (final (ProcessMetric requests (NewWorker 0))) =
      Done tt (store 0 (OCounter (Counter_Sample a 1 1))
                 (set_self incr_processed (final (ProcessMetric requests (NewWorker 0))))).
Proof.
  assert (Hwf : wf (final (ProcessMetric requests (NewWorker 0))))
    by apply ProcessMetric_sound, wf_NewWorker.
  assert (Ho : owner (final (ProcessMetric requests (NewWorker 0)))
                 (familyOf KCounter) (Key requests) = Some 0%nat)
    by (vm_compute; reflexivity).
  exact (ProcessMetric_seen requests (final (ProcessMetric requests (NewWorker 0)))
           KCounter 1%float 0%nat Hwf eq_refl eq_refl Ho).
Defined.

(** The first "requests" sample of a fresh worker. *)
Lemma ProcessMetric_first_requests :
  exists mp,
    mapping (heap (NewWorker 0)) (wm (self (NewWorker 0))) counterF = Some mp /\
    ProcessMetric requests (NewWorker 0) =
      Done tt
        (store 0 (OCounter (Counter_Sample (NewCounter "requests" []) 1 1))
           (adopt counterF (Key requests) (NewCounter "requests" []) mp
              (add_entry (mkEntry DebugLevel (FString "name" "requests") "New counter")
                 (set_self incr_processed (NewWorker 0))))).
Proof.
  exact (ProcessMetric_first requests (NewWorker 0) KCounter 1%float
           (wf_NewWorker 0) eq_refl eq_refl eq_refl).
Defined.

(** A "requests" counter sample that carries a string. *)
Lemma ProcessMetric_wrong_value_requests :
  exists s',
    ProcessMetric requests_text (NewWorker 0) = Panic s' /\
    processed (self s') = wrap64 (0 + 1) /\
    acc_at s' counterF (Key requests) = Some (NewCounter "requests" []) /\
    (forall K' k', K' <> KCounter \/ k' <> Key requests ->
       acc_at s' (familyOf K') k' = acc_at (NewWorker 0) (familyOf K') k').
Proof.
  exact (ProcessMetric_wrong_value requests_text (NewWorker 0) KCounter
           (wf_NewWorker 0) eq_refl eq_refl).
Defined.

(** The entry of "requests" through a gauge sample, an import and another
    "requests" sample. *)
Lemma entries_stable_requests :
  owner (final (run [OpProcess cpu; OpImport users_valid; OpProcess requests]
                  (final (ProcessMetric requests (NewWorker 0)))))
    counterF (Key requests) = Some 0%nat.
Proof.
  apply (entries_stable [OpProcess cpu; OpImport users_valid; OpProcess requests]
           (final (ProcessMetric requests (NewWorker 0))) KCounter (Key requests) 0%nat).
  - apply ProcessMetric_sound, wf_NewWorker.
  - repeat constructor.
  - vm_compute; reflexivity.
Defined.

(** "carol" is sampled into the set of "users", then a peer's state with
    "alice" and "bob" is imported. *)
Lemma sample_then_import_users :
  exists s',
    run [OpProcess visitor; OpImport users_valid] (NewWorker 0) = Done tt s' /\
    acc_at s' setF users = Some (mkRSet "users" [] ["carol"; "alice"; "bob"]).
Proof.
  destruct (sample_then_import visitor users_valid (NewWorker 0) "carol")
    as (s' & Hrun & Hacc & _); [apply wf_NewWorker|reflexivity..|].
  exists s'. split; [exact Hrun|].
  etrans; [exact Hacc|vm_compute; reflexivity].
Defined.

(** Two samples offered, three draws. *)
Lemma Work_drains_two :
  Work [true; false; true] (mkChans [requests; cpu] false) (NewWorker 0) =
  (Blocked, mkChans [] false,
   final (run (OpProcess <$> [requests; cpu]) (NewWorker 0))).
Proof.
  apply (Work_drains_in_order [requests; cpu] [true; false; true]).
  - vm_compute; reflexivity.
  - simpl; lia.
Defined.

(** A well-typed sample, a counter sample that carries a string, and a
    sample that is never received. *)
Lemma Work_crashes_on_text :
  Work [true; true; true] (mkChans ([requests] ++ requests_text :: [cpu]) false) (NewWorker 0) =
  (Crashed, mkChans [cpu] false,
   final (ProcessMetric requests_text (final (ProcessMetric requests (NewWorker 0))))).
Proof.
  apply (Work_crashes [requests] [cpu] requests_text [true; true; true] (NewWorker 0)
           (final (ProcessMetric requests (NewWorker 0)))).
  - vm_compute; reflexivity.
  - vm_compute; reflexivity.
  - simpl; lia.
Defined.

Lemma four_well_typed : Forall well_typed [requests; cpu; requests; bogus].
Proof. repeat constructor; unfold well_typed; simpl; by eexists. Qed.

(** A window of four samples after a flush. *)
Lemma window_snapshot_four :
  exists s2 r s3,
    run (OpProcess <$> [requests; cpu; requests; bogus]) (flushed 0 (NewWorker 0))
      = Done tt s2 /\
    Flush 0 s2 = Done r s3 /\
    processed (self s2) = 4 /\
    acc_of (heap s3) r counterF (Key requests) = Some (mkRCounter "requests" [] 2) /\
    acc_of (heap s3) r gaugeF (Key requests) = None.
Proof.
  destruct (window_snapshot (NewWorker 0) 0 0 [requests; cpu; requests; bogus])
    as (s2 & r & s3 & Hrun & Hf & Hp & _ & Hacc & Hoth).
  - apply four_well_typed.
  - unfold MaxInt64. simpl. lia.
  - exists s2, r, s3. split; [exact Hrun|]. split; [exact Hf|]. split; [exact Hp|]. split.
    + etrans; [exact (Hacc KCounter (Key requests) eq_refl)|vm_compute; reflexivity].
    + apply (Hoth KGauge (Key requests)). discriminate.
Defined.

(** The report of the same window. *)
Lemma window_report_four :
  exists s2 r s3,
    run (OpProcess <$> [requests; cpu; requests; bogus]) (flushed 0 (NewWorker 7))
      = Done tt s2 /\
    Flush 0 s2 = Done r s3 /\
    reported s3 !! 9%nat = Some (Count "worker.metrics_processed_total" 4 ["worker:7"] 1) /\
    reported s3 !! 11%nat = Some (Count "worker.metrics_flushed_total" 1 ["metric_type:counter"] 1) /\
    reported s3 !! 13%nat = Some (Count "worker.metrics_flushed_total" 0 ["metric_type:histogram"] 1).
Proof.
  destruct (window_report (NewWorker 7) 0 0 [requests; cpu; requests; bogus])
    as (s2 & r & s3 & Hrun & Hf & Hrep).
  - apply four_well_typed.
  - unfold MaxInt64. simpl. lia.
  - exists s2, r, s3. split; [exact Hrun|]. split; [exact Hf|].
    rewrite Hrep. repeat split; vm_compute; reflexivity.
Defined.
